(** * OpenClaw manager scripts: env validator and rollout planner

    A shallow embedding of the two command-line scripts
    [scripts/validate_openclaw_env.py] and [scripts/plan_openclaw_rollout.py],
    followed by the properties their specification states about them.

    Python [str] values are modelled as lists of code points.  The code
    points are those of the range U+0000..U+00FF, carried by [ascii]; the
    library methods the scripts call ([strip], [lower], [splitlines],
    [split], [in], [startswith], [join]) are given the behaviour CPython
    has on that range. *)

From Stdlib Require Import List Ascii String Bool Arith NArith ZArith Lia.
From Stdlib Require Import DecimalString Sorted.
Import ListNotations.


(** ** Exceptions *)

Inductive exn : Type :=
| ValueError (msg : list ascii)
| KeyError (key : list ascii)
| OSError (msg : list ascii)
| UnicodeError (msg : list ascii).

Inductive result (A : Type) : Type :=
| Ok (a : A)
| Raise (e : exn).

Arguments Ok {A} a.
Arguments Raise {A} e.

Definition bind {A B : Type} (r : result A) (k : A -> result B) : result B :=
  match r with
  | Ok a => k a
  | Raise e => Raise e
  end.

Notation "x <- c ;; k" := (bind c (fun x => k))
  (at level 61, c at next level, right associativity).
Notation "' pat <- c ;; k" := (bind c (fun x => match x with pat => k end))
  (at level 61, pat pattern, c at next level, right associativity).

(** ** Python strings *)

Module PyStr.

Definition str : Type := list ascii.

(** A literal of the source. *)
Definition lit (s : string) : str := list_ascii_of_string s.

Definition ord (c : ascii) : N := N_of_ascii c.
Definition chr (n : N) : ascii := ascii_of_N n.

Definition LF : ascii := chr 10.
Definition CR : ascii := chr 13.

Definition between (lo hi : N) (c : ascii) : bool :=
  ((lo <=? ord c) && (ord c <=? hi))%N.

(** [c.isspace()], the characters [strip()] removes: TAB, LF, VT, FF, CR,
    FS, GS, RS, US, SPACE, NEL and NBSP. *)
Definition isspace (c : ascii) : bool :=
  between 9 13 c || between 28 32 c || (ord c =? 133)%N || (ord c =? 160)%N.

(** The line boundaries of [splitlines()]: LF, VT, FF, CR, FS, GS, RS, NEL. *)
Definition is_linebreak (c : ascii) : bool :=
  between 10 13 c || between 28 30 c || (ord c =? 133)%N.

(** [c.lower()]: A-Z, and the capital letters of the Latin-1 supplement
    (U+00C0..U+00DE without the multiplication sign U+00D7). *)
Definition lower_char (c : ascii) : ascii :=
  if between 65 90 c
     || (between 192 222 c && negb (ord c =? 215)%N)
  then chr (ord c + 32)
  else c.

Definition lower (s : str) : str := map lower_char s.

Fixpoint str_eqb (a b : str) : bool :=
  match a, b with
  | [], [] => true
  | x :: a', y :: b' => Ascii.eqb x y && str_eqb a' b'
  | _, _ => false
  end.

Fixpoint lstrip (s : str) : str :=
  match s with
  | [] => []
  | c :: r => if isspace c then lstrip r else s
  end.

Definition rstrip (s : str) : str := rev (lstrip (rev s)).

Definition strip (s : str) : str := rstrip (lstrip s).

Fixpoint startswith (s prefix : str) : bool :=
  match prefix, s with
  | [], _ => true
  | p :: prefix', c :: s' => Ascii.eqb p c && startswith s' prefix'
  | _ :: _, [] => false
  end.

(** [sub in s]. *)
Fixpoint contains (s sub : str) : bool :=
  startswith s sub
  || match s with
     | [] => false
     | _ :: r => contains r sub
     end.

(** [s.split(sep)] for a separator of one character, the only kind the
    scripts use. *)
Fixpoint split (sep : ascii) (s : str) : list str :=
  match s with
  | [] => [[]]
  | c :: r =>
      if Ascii.eqb c sep then [] :: split sep r
      else match split sep r with
           | [] => [[c]]
           | w :: ws => (c :: w) :: ws
           end
  end.

(** [s.split(sep, 1)]: at most one split, at the first separator. *)
Fixpoint split1 (sep : ascii) (s : str) : list str :=
  match s with
  | [] => [[]]
  | c :: r =>
      if Ascii.eqb c sep then [[]; r]
      else match split1 sep r with
           | w :: ws => (c :: w) :: ws
           | [] => [[c]]
           end
  end.

(** [s.splitlines()]: no line for the empty text, no empty last line after a
    final line break, CR LF taken as one break. *)
Fixpoint splitlines (s : str) : list str :=
  match s with
  | [] => []
  | c :: r =>
      if is_linebreak c then
        [] :: match r with
              | d :: r' => if Ascii.eqb c CR && Ascii.eqb d LF
                           then splitlines r' else splitlines r
              | [] => []
              end
      else match splitlines r with
           | [] => [[c]]
           | w :: ws => (c :: w) :: ws
           end
  end.

(** [sep.join(parts)]. *)
Fixpoint join (sep : str) (parts : list str) : str :=
  match parts with
  | [] => []
  | [p] => p
  | p :: ps => p ++ sep ++ join sep ps
  end.

(** Code point order on strings, the order of [sorted] on a list of [str]. *)
Fixpoint str_leb (a b : str) : bool :=
  match a, b with
  | [], _ => true
  | _ :: _, [] => false
  | x :: a', y :: b' =>
      if (ord x <? ord y)%N then true
      else if (ord y <? ord x)%N then false
      else str_leb a' b'
  end.

Fixpoint insert_sorted (x : str) (l : list str) : list str :=
  match l with
  | [] => [x]
  | y :: l' => if str_leb x y then x :: l else y :: insert_sorted x l'
  end.

(** [sorted(l)]. *)
Definition sorted (l : list str) : list str := fold_right insert_sorted [] l.

Definition mem (x : str) (l : list str) : bool := existsb (str_eqb x) l.

(** The elements of [set(l)], each once. *)
Fixpoint set (l : list str) : list str :=
  match l with
  | [] => []
  | x :: l' => if mem x l' then set l' else x :: set l'
  end.

(** [str(n)] for a natural number, as an f-string renders it. *)
Definition of_nat (n : nat) : str :=
  lit (NilEmpty.string_of_uint (Nat.to_uint n)).

(** Truth value of a sequence ([str] or [list]): non-empty. *)
Definition truthy {A : Type} (l : list A) : bool :=
  match l with
  | [] => false
  | _ :: _ => true
  end.

(** [enumerate(l, start)]. *)
Fixpoint enumerate {A : Type} (start : nat) (l : list A) : list (nat * A) :=
  match l with
  | [] => []
  | x :: l' => (start, x) :: enumerate (S start) l'
  end.

End PyStr.

Import PyStr.

(** ** pathlib paths

    [Path] of the POSIX flavour: a root and the components after it.  The
    scripts only build a path from a command line argument, print it, take
    its parent and hand it to the file system. *)

Module PyPath.

Record PurePath : Type := { root : str; parts : list str }.

(** [posixpath.splitroot]: the root is [/], or [//] for exactly two leading
    slashes, or empty. *)
Definition splitroot (p : str) : str * str :=
  match p with
  | c1 :: rest1 =>
      if negb (Ascii.eqb c1 "/") then ([], p)
      else match rest1 with
           | c2 :: rest2 =>
               if negb (Ascii.eqb c2 "/") then (lit "/", rest1)
               else match rest2 with
                    | c3 :: _ =>
                        if Ascii.eqb c3 "/" then (lit "/", rest1)
                        else (lit "//", rest2)
                    | [] => (lit "//", rest2)
                    end
           | [] => (lit "/", rest1)
           end
  | [] => ([], p)
  end.

(** [Path(arg)]: empty components and [.] components are dropped. *)
Definition Path (arg : str) : PurePath :=
  let (r, rel) := splitroot arg in
  {| root := r;
     parts := filter (fun x => truthy x && negb (str_eqb x (lit ".")))
                     (split "/" rel) |}.

(** [str(path)]. *)
Definition str_of (path : PurePath) : str :=
  let s := root path ++ join (lit "/") (parts path) in
  if truthy s then s else lit ".".

(** [path.parent]. *)
Definition parent (path : PurePath) : PurePath :=
  match parts path with
  | [] => path
  | _ :: _ => {| root := root path; parts := removelast (parts path) |}
  end.

End PyPath.


(** ** Python dictionaries with string keys

    Insertion-ordered: [items()] lists the keys in the order of their first
    assignment, and assigning to a present key keeps its place. *)

Module PyDict.

Definition dict : Type := list (str * str).

Fixpoint get (d : dict) (key : str) : option str :=
  match d with
  | [] => None
  | (k, v) :: d' => if str_eqb k key then Some v else get d' key
  end.

(** [key in d]. *)
Definition has (d : dict) (key : str) : bool :=
  match get d key with
  | Some _ => true
  | None => false
  end.

(** [d[key]]. *)
Definition item (d : dict) (key : str) : result str :=
  match get d key with
  | Some v => Ok v
  | None => Raise (KeyError key)
  end.

(** [d[key] = value]. *)
Fixpoint setitem (d : dict) (key value : str) : dict :=
  match d with
  | [] => [(key, value)]
  | (k, v) :: d' =>
      if str_eqb k key then (k, value) :: d' else (k, v) :: setitem d' key value
  end.

Definition keys (d : dict) : list str := map fst d.

End PyDict.

(** The body of a [for] loop that may raise, run over a sequence. *)
Fixpoint for_each {S X : Type} (body : S -> X -> result S) (xs : list X) (st : S)
  : result S :=
  match xs with
  | [] => Ok st
  | x :: xs' => st' <- body st x ;; for_each body xs' st'
  end.

(** ** validate_openclaw_env.py *)

Module ValidateEnv.

Definition PLACEHOLDER_PATTERNS : list str :=
  [ lit "changeme"; lit "todo"; lit "your-key"; lit "your_token";
    lit "example"; lit "replace-me"; lit "placeholder" ].

(** The character classes of [KEY_RE]: [[A-Za-z_]] and [[A-Za-z0-9_]]. *)
Definition key_start (c : ascii) : bool :=
  between 65 90 c || between 97 122 c || Ascii.eqb c "_".

Definition key_char (c : ascii) : bool :=
  between 65 90 c || between 97 122 c || between 48 57 c || Ascii.eqb c "_".

(** [[A-Za-z0-9_]*$] matched against the rest of the key.  Without the
    MULTILINE flag [$] matches at the end of the string and also just before
    a line feed that ends the string. *)
Fixpoint key_rest (s : str) : bool :=
  match s with
  | [] => true
  | c :: r => (key_char c && key_rest r) || (Ascii.eqb c LF && negb (truthy r))
  end.

(** [KEY_RE.match(key)] finds a match. *)
Definition KEY_RE_match (key : str) : bool :=
  match key with
  | [] => false
  | c :: r => key_start c && key_rest r
  end.

(** The three accumulators of [parse_env]. *)
Definition parsed : Type := (PyDict.dict * list str * list (nat * str))%type.

(** The body of the loop of [parse_env], for the line [raw_line] numbered
    [idx]. *)
Definition parse_line (st : parsed) (entry : nat * str) : result parsed :=
  let '(values, duplicates, malformed) := st in
  let '(idx, raw_line) := entry in
  let line := strip raw_line in
  if negb (truthy line) || startswith line (lit "#") then Ok st
  else if negb (contains line (lit "=")) then
    Ok (values, duplicates, malformed ++ [(idx, raw_line)])
  else
    match split1 "=" line with
    | [key; value] =>
        let key := strip key in
        let value := strip value in
        if negb (KEY_RE_match key) then
          Ok (values, duplicates, malformed ++ [(idx, raw_line)])
        else
          let duplicates :=
            if PyDict.has values key then duplicates ++ [key] else duplicates in
          Ok (PyDict.setitem values key value, duplicates, malformed)
    | _ => Raise (ValueError (lit "not enough values to unpack (expected 2, got 1)"))
    end.

(** [parse_env], on the text that [env_path.read_text()] returns. *)
Definition parse_env (text : str) : result parsed :=
  for_each parse_line (enumerate 1 (splitlines text)) ([], [], []).

Definition is_placeholder (value : str) : bool :=
  let lowered := lower value in
  existsb (fun pattern => contains lowered pattern) PLACEHOLDER_PATTERNS.

(** The parsed command line: [--env-file] and the [--require] occurrences. *)
Record Args : Type := { env_file : str; require : list str }.

(** What a run leaves behind: the lines printed and the exit status. *)
Record Run : Type := { stdout : list str; status : Z }.

(** [missing]: [key not in values or not values[key]]; the subscript is only
    evaluated for a key that is present. *)
Definition is_missing (values : PyDict.dict) (key : str) : bool :=
  match PyDict.get values key with
  | None => true
  | Some value => negb (truthy value)
  end.

Definition missing_keys (values : PyDict.dict) (required : list str) : list str :=
  filter (is_missing values) required.

Definition placeholder_keys (values : PyDict.dict) : list str :=
  map fst (filter (fun kv => truthy (snd kv) && is_placeholder (snd kv)) values).

(** What the file system answers for a path: [exists()] is false; or
    [exists()] raises, or is true and [read_text()] raises (a directory, a
    file that may not be read, bytes that do not decode); or [exists()] is
    true and [read_text()] returns the text. *)
Inductive file : Type :=
| Missing
| Unreadable (e : exn)
| Readable (text : str).

(** [main].  [fs] is the file system, asked with the string of a path.  An
    exception of [exists()] or [read_text()] is not caught. *)
Definition main (fs : str -> file) (args : Args) : result Run :=
  let env_path := PyPath.Path (env_file args) in
  match fs (PyPath.str_of env_path) with
  | Missing =>
      Ok {| stdout := [lit "[ERROR] Env file not found: "
                       ++ PyPath.str_of env_path];
            status := 1 |}
  | Unreadable e => Raise e
  | Readable text =>
      '(values, duplicates, malformed) <- parse_env text ;;
      let missing := missing_keys values (require args) in
      let placeholders := placeholder_keys values in
      let out := [lit "Parsed keys: " ++ of_nat (List.length values)] in
      let out :=
        if truthy malformed then
          out ++ (LF :: lit "Malformed lines:")
              :: map (fun e => lit "  - line " ++ of_nat (fst e) ++ lit ": " ++ snd e)
                     malformed
        else out in
      let out :=
        if truthy duplicates then
          out ++ (LF :: lit "Duplicate keys:")
              :: map (fun key => lit "  - " ++ key) (sorted (set duplicates))
        else out in
      let out :=
        if truthy missing then
          out ++ (LF :: lit "Missing required keys:")
              :: map (fun key => lit "  - " ++ key) missing
        else out in
      let out :=
        if truthy placeholders then
          out ++ (LF :: lit "Potential placeholder values detected:")
              :: map (fun key => lit "  - " ++ key) placeholders
        else out in
      let has_errors :=
        truthy malformed || truthy duplicates || truthy missing
        || truthy placeholders in
      if has_errors then
        Ok {| stdout := out ++ [LF :: lit "[FAIL] Env validation failed."];
              status := 1 |}
      else
        Ok {| stdout := out ++ [LF :: lit "[OK] Env validation passed."];
              status := 0 |}
  end.

End ValidateEnv.

(** ** plan_openclaw_rollout.py *)

Module PlanRollout.

Definition PROVIDER_LINKS : PyDict.dict :=
  [ (lit "fly", lit "https://docs.openclaw.ai/install/fly");
    (lit "render", lit "https://docs.openclaw.ai/install/render");
    (lit "railway", lit "https://docs.openclaw.ai/install/railway");
    (lit "hetzner", lit "https://docs.openclaw.ai/install/hetzner");
    (lit "gcp", lit "https://docs.openclaw.ai/install/gcp") ].

Definition CHANNEL_LINKS : PyDict.dict :=
  [ (lit "telegram", lit "https://docs.openclaw.ai/channels/telegram");
    (lit "discord", lit "https://docs.openclaw.ai/channels/discord");
    (lit "slack", lit "https://docs.openclaw.ai/channels/slack") ].

Definition parse_channels (raw : str) : result (list str) :=
  let channels :=
    map (fun c => lower (strip c))
        (filter (fun c => truthy (strip c)) (split "," raw)) in
  let invalid := filter (fun c => negb (PyDict.has CHANNEL_LINKS c)) channels in
  if truthy invalid then
    Raise (ValueError (lit "Unsupported channels: " ++ join (lit ", ") invalid))
  else Ok channels.

(** The two lines the loop of [render] appends for one channel. *)
Definition append_channel (lines : list str) (channel : str) : result (list str) :=
  url <- PyDict.item CHANNEL_LINKS channel ;;
  let lines := lines ++ [lit "- [ ] Configure " ++ channel ++ lit ": " ++ url] in
  Ok (lines ++ [lit "- [ ] Send " ++ channel
                ++ lit " smoke-test message and verify response path."]).

(** The list that [render] starts [lines] with; [now] is the ISO timestamp
    read from the clock. *)
Definition opening_lines (now provider environment provider_url : str)
  : list str :=
  [ lit "# OpenClaw Rollout Plan";
    lit "";
    lit "- Generated: " ++ now;
    lit "- Provider: " ++ provider;
    lit "- Environment: " ++ environment;
    lit "";
    lit "## 1. Preflight";
    lit "- [ ] Confirm deployment scope and rollback owner.";
    lit "- [ ] Validate `.env` with `scripts/validate_openclaw_env.py`.";
    lit "- [ ] Confirm secure secret storage in provider dashboard/CLI.";
    lit "";
    lit "## 2. Deployment";
    lit "- [ ] Follow official provider guide: " ++ provider_url;
    lit "- [ ] Configure persistent state storage before first traffic.";
    lit "- [ ] Deploy and capture app URL + health checks.";
    lit "- [ ] Verify logs show healthy startup without secret leakage.";
    lit "";
    lit "## 3. Channels" ].

(** The list that [render] extends [lines] with at the end. *)
Definition closing_lines : list str :=
  [ lit "";
    lit "## 4. Agent + Memory";
    lit "- [ ] Confirm agent behavior constraints align with intended use.";
    lit "- [ ] Confirm memory persistence and restart behavior.";
    lit "";
    lit "## 5. Security";
    lit "- [ ] Apply references/openclaw-security-checklist.md and mark pass/fail.";
    lit "- [ ] Verify gateway protection and token rotation plan.";
    lit "";
    lit "## 6. Handover";
    lit "- [ ] Record deployment details, risks, and follow-ups.";
    lit "- [ ] Share operator runbook and escalation path.";
    lit "" ].

Definition render (now : str) (provider : str) (channels : list str)
    (environment : str) : result str :=
  provider_url <- PyDict.item PROVIDER_LINKS provider ;;
  let lines := opening_lines now provider environment provider_url in
  lines <- (if truthy channels then for_each append_channel channels lines
            else Ok (lines ++ [lit "- [ ] No channels selected for this rollout."])) ;;
  let lines := lines ++ closing_lines in
  Ok (join [LF] lines).

(** The command line after argparse has filled in the defaults
    ([--channels] empty, [--environment] prod). *)
Record Args : Type :=
  { provider : str; channels : str; environment : str; output : str }.

(** What a run leaves behind: the lines printed on standard output, the file
    written (path and content) if any, and the exit status. *)
Record Run : Type :=
  { stdout : list str; written : option (str * str); status : Z }.

(** The file system calls of [main], each of which may raise:
    [path.mkdir(parents=True, exist_ok=True)] and [path.write_text(content)],
    with the string of the path. *)
Record FS : Type :=
  { mkdir : str -> result unit;
    write_text : str -> str -> result unit }.

(** [main].  The [choices] of [--provider] are checked by [parse_args], which
    on a value outside them prints a usage message on standard error and
    exits with status 2.  Only the [ValueError] of [parse_channels] is
    caught; an exception of [render], [mkdir] or [write_text] ends the
    run. *)
Definition main (fs : FS) (now : str) (args : Args) : result Run :=
  if negb (mem (provider args) (sorted (PyDict.keys PROVIDER_LINKS))) then
    Ok {| stdout := []; written := None; status := 2 |}
  else
    match (if truthy (channels args) then parse_channels (channels args)
           else Ok []) with
    | Raise (ValueError err) =>
        Ok {| stdout := [lit "[ERROR] " ++ err]; written := None; status := 1 |}
    | Raise e => Raise e
    | Ok chans =>
        content <- render now (provider args) chans (environment args) ;;
        let output := PyPath.Path (output args) in
        _ <- mkdir fs (PyPath.str_of (PyPath.parent output)) ;;
        _ <- write_text fs (PyPath.str_of output) content ;;
        Ok {| stdout := [lit "[OK] Wrote rollout plan: " ++ PyPath.str_of output];
              written := Some (PyPath.str_of output, content);
              status := 0 |}
    end.

End PlanRollout.

(** ** Vocabulary of the specification *)

Module Spec.

(** [sub] occurs in [s] as a substring. *)
Definition infix (sub s : str) : Prop := exists a b, s = a ++ sub ++ b.

Definition is_letter (c : ascii) : Prop :=
  (65 <= ord c <= 90)%N \/ (97 <= ord c <= 122)%N.

Definition is_digit (c : ascii) : Prop := (48 <= ord c <= 57)%N.

(** The key grammar: a letter or underscore, then letters, digits and
    underscores. *)
Definition key_name (k : str) : Prop :=
  match k with
  | [] => False
  | c :: r =>
      (is_letter c \/ c = "_"%char)
      /\ Forall (fun d => is_letter d \/ is_digit d \/ d = "_"%char) r
  end.

(** [pre] and [post] are what stands before and after the first [=] of
    [line]. *)
Definition first_eq (line pre post : str) : Prop :=
  line = pre ++ "="%char :: post /\ ~ In "="%char pre.

Definition blank (raw_line : str) : Prop := strip raw_line = [].

Definition comment (raw_line : str) : Prop :=
  exists r, strip raw_line = "#"%char :: r.

(** A well-formed line, which assigns the value [v] to the key [k]. *)
Definition assigns (raw_line k v : str) : Prop :=
  exists pre post,
    first_eq (strip raw_line) pre post
    /\ key_name (strip pre) /\ k = strip pre /\ v = strip post.

(** What makes a line that is neither blank nor a comment malformed. *)
Definition bad_shape (raw_line : str) : Prop :=
  ~ In "="%char (strip raw_line)
  \/ exists pre post,
       first_eq (strip raw_line) pre post /\ ~ key_name (strip pre).

Definition malformed_line (raw_line : str) : Prop :=
  ~ blank raw_line /\ ~ comment raw_line /\ bad_shape raw_line.

(** The test of the loop for a line it passes over: blank or comment. *)
Definition skipped_line (raw_line : str) : bool :=
  negb (truthy (strip raw_line)) || startswith (strip raw_line) (lit "#").

(** [occurs k lines vs]: [vs] are the values that the well-formed lines for
    the key [k] among [lines] give it, in the order of the file. *)
Inductive occurs (k : str) : list str -> list str -> Prop :=
| occurs_nil : occurs k [] []
| occurs_here l ls v vs :
    assigns l k v -> occurs k ls vs -> occurs k (l :: ls) (v :: vs)
| occurs_skip l ls vs :
    (forall v, ~ assigns l k v) -> occurs k ls vs -> occurs k (l :: ls) vs.

(** Strict code point order. *)
Definition str_lt (a b : str) : Prop := str_leb a b = true /\ a <> b.

(** Layout of the report: an item line, and a titled block that is printed
    only when it has items. *)
Definition bullet (key : str) : str := lit "  - " ++ key.

Definition malformed_item (e : nat * str) : str :=
  lit "  - line " ++ of_nat (fst e) ++ lit ": " ++ snd e.

Definition block (title : string) (items : list str) : list str :=
  match items with
  | [] => []
  | _ :: _ => (LF :: lit title) :: items
  end.

(** The last line of the report. *)
Definition verdict (clean : bool) : str :=
  LF :: (if clean then lit "[OK] Env validation passed."
         else lit "[FAIL] Env validation failed.").

(** The report without its last line: the count of parsed keys and the four
    blocks in their fixed order. *)
Definition findings (values : PyDict.dict) (dups : list str)
    (mal : list (nat * str)) (missing placeholders : list str) : list str :=
  [lit "Parsed keys: " ++ of_nat (List.length values)]
  ++ block "Malformed lines:" (map malformed_item mal)
  ++ block "Duplicate keys:" (map bullet (sorted (set dups)))
  ++ block "Missing required keys:" (map bullet missing)
  ++ block "Potential placeholder values detected:" (map bullet placeholders).

Definition seven_patterns (p : str) : Prop :=
  p = lit "changeme" \/ p = lit "todo" \/ p = lit "your-key"
  \/ p = lit "your_token" \/ p = lit "example" \/ p = lit "replace-me"
  \/ p = lit "placeholder".

Definition valid_provider (p : str) : Prop :=
  p = lit "fly" \/ p = lit "render" \/ p = lit "railway"
  \/ p = lit "hetzner" \/ p = lit "gcp".

Definition valid_channel (c : str) : Prop :=
  c = lit "telegram" \/ c = lit "discord" \/ c = lit "slack".

Definition valid_channelb (c : str) : bool :=
  mem c [lit "telegram"; lit "discord"; lit "slack"].

(** [segs] are the comma-separated segments of [raw]. *)
Definition segments (raw : str) (segs : list str) : Prop :=
  segs <> [] /\ raw = join [","%char] segs
  /\ Forall (fun s => ~ In ","%char s) segs.

(** The identifiers of a segment list: trimmed, lower-cased, the segments
    that are empty once trimmed left out. *)
Definition identifiers (segs : list str) : list str :=
  map (fun s => lower (strip s)) (filter (fun s => truthy (strip s)) segs).

(** The lines of a rendered document. *)
Definition doc_lines (doc : str) : list str := split LF doc.

Fixpoint until_blank (ls : list str) : list str :=
  match ls with
  | [] => []
  | l :: ls' => if truthy l then l :: until_blank ls' else []
  end.

(** The section under [heading]: the lines after the heading line up to the
    next blank line.  The environment label and the timestamp are free text
    placed above the sections, so the heading that counts is the last line
    that reads [heading]. *)
Fixpoint section_of (heading : str) (ls : list str) : option (list str) :=
  match ls with
  | [] => None
  | l :: ls' =>
      match section_of heading ls' with
      | Some sec => Some sec
      | None => if str_eqb l heading then Some (until_blank ls') else None
      end
  end.

Definition channels_section (doc : str) : option (list str) :=
  section_of (lit "## 3. Channels") (doc_lines doc).

Definition configure_line (channel url : str) : str :=
  lit "- [ ] Configure " ++ channel ++ lit ": " ++ url.

Definition smoke_line (channel : str) : str :=
  lit "- [ ] Send " ++ channel ++ lit " smoke-test message and verify response path.".

Definition no_channels_line : str :=
  lit "- [ ] No channels selected for this rollout.".

(** A text without line feed, which is one line of the document it is
    joined into. *)
Definition one_line (l : str) : bool := negb (existsb (Ascii.eqb LF) l).

(** A line that can stand inside the section under [heading]: one line, not
    blank, not the heading itself. *)
Definition section_line (heading l : str) : bool :=
  one_line l && truthy l && negb (str_eqb l heading).

(** The checklist lines of one channel, with the URL of the channel table. *)
Definition channel_lines (channel : str) : list str :=
  match PyDict.get PlanRollout.CHANNEL_LINKS channel with
  | Some url => [configure_line channel url; smoke_line channel]
  | None => []
  end.

End Spec.

Import Spec.

(** ** Facts about the string primitives *)

Lemma str_eqb_eq (a b : str) : str_eqb a b = true <-> a = b.
Proof.
  revert b; induction a as [|x a IH]; intros [|y b]; simpl; split; intro H;
    try easy.
  - apply andb_true_iff in H as [H1 H2].
    apply Ascii.eqb_eq in H1. apply IH in H2. congruence.
  - injection H as -> ->. rewrite Ascii.eqb_refl. simpl. now apply IH.
Qed.

Lemma str_eqb_refl (a : str) : str_eqb a a = true.
Proof. now apply str_eqb_eq. Qed.

Lemma str_eqb_neq (a b : str) : str_eqb a b = false <-> a <> b.
Proof.
  destruct (str_eqb a b) eqn:E.
  - apply str_eqb_eq in E. split; [discriminate | contradiction].
  - split; [|reflexivity]. intros _ H. apply str_eqb_eq in H. congruence.
Qed.

Lemma str_eq_dec (a b : str) : {a = b} + {a <> b}.
Proof.
  destruct (str_eqb a b) eqn:E.
  - left. now apply str_eqb_eq.
  - right. now apply str_eqb_neq.
Defined.

Lemma truthy_false {A : Type} (l : list A) : truthy l = false <-> l = [].
Proof. destruct l; simpl; split; congruence. Qed.

Lemma truthy_true {A : Type} (l : list A) : truthy l = true <-> l <> [].
Proof. destruct l; simpl; split; congruence. Qed.

(** *** strip *)

Lemma lstrip_head (s : str) c r : lstrip s = c :: r -> isspace c = false.
Proof.
  induction s as [|x s IH]; simpl; [easy|].
  destruct (isspace x) eqn:E; [exact IH|].
  intros [= <- _]; exact E.
Qed.

Lemma lstrip_snoc (s : str) c :
  isspace c = false -> lstrip (s ++ [c]) = lstrip s ++ [c].
Proof.
  intros H. induction s as [|x s IH]; simpl.
  - now rewrite H.
  - destruct (isspace x); auto.
Qed.

Lemma rstrip_head c (r : str) :
  isspace c = false -> exists r', rstrip (c :: r) = c :: r'.
Proof.
  intros H. unfold rstrip. simpl rev.
  rewrite (lstrip_snoc _ _ H), rev_app_distr. simpl. eauto.
Qed.

Lemma strip_head (s : str) c r : strip s = c :: r -> isspace c = false.
Proof.
  unfold strip. destruct (lstrip s) as [|x t] eqn:E.
  - discriminate.
  - pose proof (lstrip_head _ _ _ E) as Hx.
    destruct (rstrip_head _ t Hx) as [r' Hr]. rewrite Hr.
    now intros [= <- _].
Qed.

Lemma strip_last (s : str) r c : strip s = r ++ [c] -> isspace c = false.
Proof.
  unfold strip, rstrip. intros H.
  apply (f_equal (@rev ascii)) in H.
  rewrite rev_involutive, rev_app_distr in H. simpl in H.
  eapply lstrip_head; eassumption.
Qed.

(** A string that starts with a character that is no white space keeps it
    when stripped. *)
Lemma strip_keeps_head c (r : str) :
  isspace c = false -> exists r', strip (c :: r) = c :: r'.
Proof.
  intros H. unfold strip. simpl. rewrite H. now apply rstrip_head.
Qed.

(** *** startswith and in *)

Lemma startswith_prefix (s p : str) :
  startswith s p = true <-> exists r, s = p ++ r.
Proof.
  revert s; induction p as [|x p IH]; intros s; simpl.
  - split; [eauto | intros _; now destruct s].
  - destruct s as [|c s].
    + split; [discriminate | intros [r H]; discriminate].
    + simpl. rewrite andb_true_iff, Ascii.eqb_eq, IH. split.
      * intros [-> [r ->]]. now exists r.
      * intros [r [= -> ->]]. eauto.
Qed.

Lemma contains_nil (sub : str) : contains [] sub = startswith [] sub || false.
Proof. reflexivity. Qed.

Lemma contains_cons c (s sub : str) :
  contains (c :: s) sub = startswith (c :: s) sub || contains s sub.
Proof. reflexivity. Qed.

Lemma contains_infix (s sub : str) : contains s sub = true <-> infix sub s.
Proof.
  split.
  - induction s as [|c s IH];
      rewrite ?contains_nil, ?contains_cons, orb_true_iff; intros [H|H].
    + apply startswith_prefix in H as [r Hr]. now exists [], r.
    + discriminate.
    + apply startswith_prefix in H as [r Hr]. now exists [], r.
    + destruct (IH H) as (a & b & ->). now exists (c :: a), b.
  - intros (a & b & ->). induction a as [|x a IH].
    + assert (H : startswith (sub ++ b) sub = true)
        by (apply startswith_prefix; eauto).
      simpl app. destruct (sub ++ b);
        rewrite ?contains_nil, ?contains_cons, H; reflexivity.
    + simpl app. rewrite contains_cons, IH. apply orb_true_r.
Qed.

Lemma infix_single c (s : str) : infix [c] s <-> In c s.
Proof.
  split.
  - intros (a & b & ->). apply in_or_app. right. now left.
  - intros H. apply in_split in H as (a & b & ->). now exists a, b.
Qed.

Lemma contains_char (s : str) c : contains s [c] = true <-> In c s.
Proof. rewrite contains_infix. apply infix_single. Qed.

(** *** split *)

Lemma in_first c (s : str) :
  In c s -> exists pre post, s = pre ++ c :: post /\ ~ In c pre.
Proof.
  induction s as [|x s IH]; [easy|]. intros H.
  destruct (ascii_dec x c) as [->|Hx].
  - exists [], s. auto.
  - destruct H as [H|H]; [contradiction|].
    destruct (IH H) as (pre & post & -> & Hn).
    exists (x :: pre), post. split; [reflexivity|].
    intros [E|E]; auto.
Qed.

Lemma first_unique c (pre pre' post post' : str) :
  pre ++ c :: post = pre' ++ c :: post' ->
  ~ In c pre -> ~ In c pre' -> pre = pre' /\ post = post'.
Proof.
  revert pre'; induction pre as [|x pre IH]; intros [|y pre'] E H H'; simpl in *.
  - injection E as ->. auto.
  - injection E as <- _. tauto.
  - injection E as -> _. tauto.
  - injection E as -> E.
    destruct (IH pre' E) as [-> ->]; auto.
Qed.

Lemma split1_first sep (pre post : str) :
  ~ In sep pre -> split1 sep (pre ++ sep :: post) = [pre; post].
Proof.
  induction pre as [|c pre IH]; simpl; intros H.
  - now rewrite Ascii.eqb_refl.
  - destruct (Ascii.eqb c sep) eqn:E.
    + apply Ascii.eqb_eq in E. tauto.
    + rewrite IH; tauto.
Qed.

Lemma split_nonempty sep (x : str) : split sep x <> [].
Proof.
  destruct x as [|c x]; simpl; [discriminate|].
  destruct (Ascii.eqb c sep); [discriminate|].
  destruct (split sep x); discriminate.
Qed.

Lemma split_app sep (x y : str) :
  split sep (x ++ sep :: y) = split sep x ++ split sep y.
Proof.
  induction x as [|c x IH]; simpl.
  - now rewrite Ascii.eqb_refl.
  - destruct (Ascii.eqb c sep); [now rewrite IH|].
    rewrite IH. pose proof (split_nonempty sep x).
    destruct (split sep x); [contradiction | reflexivity].
Qed.

Lemma split_none sep (x : str) : ~ In sep x -> split sep x = [x].
Proof.
  induction x as [|c x IH]; simpl; intros H; [reflexivity|].
  destruct (Ascii.eqb c sep) eqn:E.
  - apply Ascii.eqb_eq in E. tauto.
  - rewrite IH; tauto.
Qed.

Lemma split_join sep (segs : list str) :
  segs <> [] -> Forall (fun s => ~ In sep s) segs ->
  split sep (join [sep] segs) = segs.
Proof.
  induction segs as [|s segs IH]; [easy|]. intros _ H.
  inversion H as [|? ? Hs Hr]; subst.
  destruct segs as [|t segs].
  - simpl. now apply split_none.
  - change (join [sep] (s :: t :: segs)) with (s ++ sep :: join [sep] (t :: segs)).
    rewrite split_app, split_none by assumption.
    rewrite IH by (auto; discriminate). reflexivity.
Qed.

(** The lines of a joined document are the lines of its parts. *)
Lemma split_join_flat sep (parts : list str) :
  parts <> [] ->
  split sep (join [sep] parts) = flat_map (split sep) parts.
Proof.
  induction parts as [|s parts IH]; [easy|]. intros _.
  destruct parts as [|t parts].
  - simpl. now rewrite app_nil_r.
  - change (join [sep] (s :: t :: parts))
      with (s ++ sep :: join [sep] (t :: parts)).
    rewrite split_app, IH by discriminate. reflexivity.
Qed.

(** *** The key grammar *)

Lemma between_iff lo hi c : between lo hi c = true <-> (lo <= ord c <= hi)%N.
Proof.
  unfold between. rewrite andb_true_iff, !N.leb_le. tauto.
Qed.

Lemma key_start_iff c :
  ValidateEnv.key_start c = true <-> is_letter c \/ c = "_"%char.
Proof.
  unfold ValidateEnv.key_start, is_letter.
  rewrite !orb_true_iff, !between_iff, Ascii.eqb_eq. tauto.
Qed.

Lemma key_char_iff c :
  ValidateEnv.key_char c = true <-> is_letter c \/ is_digit c \/ c = "_"%char.
Proof.
  unfold ValidateEnv.key_char, is_letter, is_digit.
  rewrite !orb_true_iff, !between_iff, Ascii.eqb_eq. tauto.
Qed.

Lemma key_rest_iff (r : str) :
  (forall r', r <> r' ++ [LF]) ->
  ValidateEnv.key_rest r = true
  <-> Forall (fun d => is_letter d \/ is_digit d \/ d = "_"%char) r.
Proof.
  induction r as [|c r IH]; intros Hend; simpl.
  - split; auto.
  - assert (Hr : forall r', r <> r' ++ [LF]).
    { intros r' ->. apply (Hend (c :: r')). reflexivity. }
    rewrite orb_true_iff, !andb_true_iff, key_char_iff, (IH Hr).
    rewrite Ascii.eqb_eq, negb_true_iff, truthy_false. split.
    + intros [[H1 H2]|[-> ->]]; [now constructor|].
      exfalso. apply (Hend []). reflexivity.
    + intros H. inversion H; subst. now left.
Qed.

Lemma KEY_RE_strip (x : str) :
  ValidateEnv.KEY_RE_match (strip x) = true <-> key_name (strip x).
Proof.
  destruct (strip x) as [|c r] eqn:E; simpl; [split; easy|].
  rewrite andb_true_iff, key_start_iff, key_rest_iff; [tauto|].
  intros r' ->.
  assert (H : isspace LF = false)
    by (apply (strip_last x (c :: r')); exact E).
  discriminate H.
Qed.

(** *** Dictionaries *)

Lemma get_setitem (d : PyDict.dict) (k v k' : str) :
  PyDict.get (PyDict.setitem d k v) k'
  = if str_eqb k k' then Some v else PyDict.get d k'.
Proof.
  induction d as [|[k0 v0] d IH]; simpl; [reflexivity|].
  destruct (str_eqb k0 k) eqn:E; simpl.
  - apply str_eqb_eq in E. subst k0. now destruct (str_eqb k k').
  - rewrite IH. destruct (str_eqb k0 k') eqn:E'; [|reflexivity].
    apply str_eqb_eq in E'. subst k0. now rewrite (proj2 (str_eqb_neq k k')) by
      (intros ->; now rewrite str_eqb_refl in E).
Qed.

Lemma get_setitem_same (d : PyDict.dict) (k v : str) :
  PyDict.get (PyDict.setitem d k v) k = Some v.
Proof. now rewrite get_setitem, str_eqb_refl. Qed.

Lemma get_setitem_other (d : PyDict.dict) (k v k' : str) :
  k <> k' -> PyDict.get (PyDict.setitem d k v) k' = PyDict.get d k'.
Proof.
  intros H. rewrite get_setitem.
  now rewrite (proj2 (str_eqb_neq k k') H).
Qed.

Lemma has_get (d : PyDict.dict) (k : str) :
  PyDict.has d k = true <-> exists v, PyDict.get d k = Some v.
Proof.
  unfold PyDict.has. destruct (PyDict.get d k).
  - split; eauto.
  - split; [discriminate | intros [v H]; discriminate].
Qed.

Lemma has_keys (d : PyDict.dict) (k : str) :
  PyDict.has d k = true <-> In k (PyDict.keys d).
Proof.
  unfold PyDict.has, PyDict.keys.
  induction d as [|[k0 v0] d IH]; simpl.
  - split; [discriminate | contradiction].
  - destruct (str_eqb k0 k) eqn:E.
    + apply str_eqb_eq in E. split; auto.
    + apply str_eqb_neq in E. rewrite IH. split; [auto|].
      intros [H|H]; [contradiction | assumption].
Qed.

(** ** Facts about parse_env *)

Arguments ValidateEnv.parse_line : simpl never.

Lemma assigns_shape (l k v : str) :
  assigns l k v -> ~ blank l /\ ~ comment l /\ In "="%char (strip l).
Proof.
  intros (pre & post & [E Hn] & Hk & -> & ->).
  assert (Hin : In "="%char (strip l)).
  { rewrite E. apply in_or_app. right. now left. }
  split; [|split; [|exact Hin]].
  - unfold blank. intros B. rewrite B in Hin. contradiction.
  - intros [r C]. rewrite C in E.
    destruct pre as [|c pre]; [discriminate E|].
    injection E as <- _.
    destruct (strip_keeps_head "#"%char pre eq_refl) as [r' Hr].
    rewrite Hr in Hk. destruct Hk as [[[[H _]|[H _]]|H] _].
    + vm_compute in H. now apply H.
    + vm_compute in H. now apply H.
    + discriminate H.
Qed.

Lemma assigns_functional (l k v k' v' : str) :
  assigns l k v -> assigns l k' v' -> k = k' /\ v = v'.
Proof.
  intros (pre & post & [E Hn] & _ & -> & ->)
         (pre' & post' & [E' Hn'] & _ & -> & ->).
  rewrite E in E'.
  destruct (first_unique _ _ _ _ _ E' Hn Hn') as [-> ->]. auto.
Qed.

Lemma assigns_not_malformed (l k v : str) :
  assigns l k v -> ~ malformed_line l.
Proof.
  intros H (_ & _ & [Hb|(pre' & post' & [E' Hn'] & Hk')]).
  - now apply assigns_shape in H.
  - destruct H as (pre & post & [E Hn] & Hk & _).
    rewrite E in E'.
    destruct (first_unique _ _ _ _ _ E' Hn Hn') as [-> _]. contradiction.
Qed.

(** The three ways the loop body treats a line. *)
Lemma parse_line_cases values dups mal idx (l : str) :
  ((blank l \/ comment l)
   /\ ValidateEnv.parse_line (values, dups, mal) (idx, l)
      = Ok (values, dups, mal))
  \/ (malformed_line l
      /\ ValidateEnv.parse_line (values, dups, mal) (idx, l)
         = Ok (values, dups, mal ++ [(idx, l)]))
  \/ (exists k v,
        assigns l k v
        /\ ValidateEnv.parse_line (values, dups, mal) (idx, l)
           = Ok (PyDict.setitem values k v,
                 (if PyDict.has values k then dups ++ [k] else dups),
                 mal)).
Proof.
  unfold ValidateEnv.parse_line.
  destruct (truthy (strip l)) eqn:T; cbn [negb orb].
  2:{ left. split; [left; now apply truthy_false | reflexivity]. }
  assert (Hnb : ~ blank l) by now apply truthy_true.
  destruct (startswith (strip l) (lit "#")) eqn:C.
  { left. split; [right | reflexivity].
    apply startswith_prefix in C as [r Hr]. now exists r. }
  assert (Hnc : ~ comment l).
  { intros [r Hr].
    assert (startswith (strip l) (lit "#") = true)
      by (apply startswith_prefix; now exists r).
    congruence. }
  destruct (contains (strip l) (lit "=")) eqn:Q; cbn [negb].
  2:{ right; left. split; [|reflexivity].
      split; [exact Hnb | split; [exact Hnc | left]].
      intros Hin. apply (contains_char (strip l) "="%char) in Hin.
      change (lit "=") with ["="%char] in Q. congruence. }
  apply (contains_char (strip l) "="%char) in Q.
  destruct (in_first _ _ Q) as (pre & post & E & Hn).
  assert (S1 : split1 "=" (strip l) = [pre; post])
    by (rewrite E; now apply split1_first).
  rewrite S1.
  destruct (ValidateEnv.KEY_RE_match (strip pre)) eqn:K; cbn [negb].
  - right; right. exists (strip pre), (strip post). split; [|reflexivity].
    exists pre, post. split; [now split|].
    split; [now apply KEY_RE_strip | auto].
  - right; left. split; [|reflexivity].
    split; [exact Hnb | split; [exact Hnc | right]].
    exists pre, post. split; [now split|].
    intros Hk. apply KEY_RE_strip in Hk. congruence.
Qed.

Lemma parse_line_total st e : exists st', ValidateEnv.parse_line st e = Ok st'.
Proof.
  destruct st as [[v d] m], e as [idx l].
  destruct (parse_line_cases v d m idx l) as [[_ E]|[[_ E]|(k & x & _ & E)]];
    rewrite E; eauto.
Qed.

Lemma parse_loop_total es : forall st,
  exists st', for_each ValidateEnv.parse_line es st = Ok st'.
Proof.
  induction es as [|e es IH]; intros st; simpl; [eauto|].
  destruct (parse_line_total st e) as [st1 E]. rewrite E. simpl. apply IH.
Qed.

Lemma parse_env_total (text : str) :
  exists values dups mal, ValidateEnv.parse_env text = Ok (values, dups, mal).
Proof.
  destruct (parse_loop_total (enumerate 1 (splitlines text)) ([], [], []))
    as [[[v d] m] E].
  now exists v, d, m.
Qed.

(** A property that every run of the loop body keeps holds after the loop. *)
Lemma parse_loop_invariant (P : ValidateEnv.parsed -> Prop) :
  (forall st e st', P st -> ValidateEnv.parse_line st e = Ok st' -> P st') ->
  forall es st st',
    P st -> for_each ValidateEnv.parse_line es st = Ok st' -> P st'.
Proof.
  intros Hstep es. induction es as [|e es IH]; intros st st' HP; simpl.
  - intros [= <-]. exact HP.
  - destruct (ValidateEnv.parse_line st e) as [st1|x] eqn:E; simpl;
      [|discriminate].
    apply IH. eapply Hstep; eassumption.
Qed.

Lemma nth_shift {A : Type} (x0 : A) xs start n x :
  start <= n ->
  (nth_error (x0 :: xs) (n - start) = Some x
   <-> (n = start /\ x = x0)
       \/ (S start <= n /\ nth_error xs (n - S start) = Some x)).
Proof.
  intros Hle. destruct (Nat.eq_dec n start) as [->|Hne].
  - rewrite Nat.sub_diag. simpl. split.
    + intros [= ->]. auto.
    + intros [[_ ->]|[H _]]; [reflexivity | lia].
  - replace (n - start) with (S (n - S start)) by lia. simpl. split.
    + intros H. right. split; [lia | exact H].
    + intros [[H _]|[_ H]]; [contradiction | exact H].
Qed.

(** The malformed list grows by the malformed lines, each with its own text
    and number, in the order of the file. *)
Lemma parse_loop_malformed lines : forall start v d m v' d' m',
  for_each ValidateEnv.parse_line (enumerate start lines) (v, d, m)
  = Ok (v', d', m') ->
  exists extra,
    m' = m ++ extra
    /\ StronglySorted lt (map fst extra)
    /\ forall n l,
         In (n, l) extra
         <-> (start <= n /\ nth_error lines (n - start) = Some l
              /\ malformed_line l).
Proof.
  induction lines as [|l0 lines IH]; intros start v d m v' d' m'; simpl.
  - intros [= <- <- <-]. exists []. rewrite app_nil_r.
    split; [reflexivity|]. split; [constructor|].
    intros n l. split; [contradiction|].
    intros (_ & H & _). destruct (n - start); discriminate.
  - destruct (parse_line_cases v d m start l0)
      as [[Hs E]|[[Hm E]|(k & x & Ha & E)]]; rewrite E; simpl; intros H;
      apply IH in H as (extra & -> & Hsort & Hx).
    + exists extra. split; [reflexivity|]. split; [exact Hsort|].
      intros n l. rewrite Hx. split.
      * intros (Hle & Hn & Hl). split; [lia|]. split; [|exact Hl].
        apply nth_shift; [lia|]. right. auto.
      * intros (Hle & Hn & Hl). apply nth_shift in Hn; [|exact Hle].
        destruct Hn as [[-> ->]|[Hle' Hn]]; [|auto].
        destruct Hl as (Hb & Hc & _). tauto.
    + exists ((start, l0) :: extra). split; [now rewrite <- app_assoc|].
      split.
      * simpl. constructor; [exact Hsort|].
        apply Forall_forall. intros n Hn.
        apply in_map_iff in Hn as ([n' l'] & <- & Hin).
        apply Hx in Hin. simpl. lia.
      * intros n l. simpl. rewrite Hx. split.
        -- intros [[= <- <-]|(Hle & Hn & Hl)].
           ++ split; [lia|]. rewrite Nat.sub_diag. auto.
           ++ split; [lia|]. split; [|exact Hl].
              apply nth_shift; [lia|]. right. auto.
        -- intros (Hle & Hn & Hl). apply nth_shift in Hn; [|exact Hle].
           destruct Hn as [[-> ->]|[Hle' Hn]]; auto.
    + exists extra. split; [reflexivity|]. split; [exact Hsort|].
      intros n l. rewrite Hx. split.
      * intros (Hle & Hn & Hl). split; [lia|]. split; [|exact Hl].
        apply nth_shift; [lia|]. right. auto.
      * intros (Hle & Hn & Hl). apply nth_shift in Hn; [|exact Hle].
        destruct Hn as [[-> ->]|[Hle' Hn]]; [|auto].
        exfalso. now apply (assigns_not_malformed _ _ _ Ha).
Qed.

Lemma last_cons {A : Type} (l : list A) : forall a d, last (a :: l) d = last l a.
Proof.
  induction l as [|x l IH]; intros a d; [reflexivity|].
  change (last (a :: x :: l) d) with (last (x :: l) d).
  now rewrite !IH.
Qed.

(** The value a key ends up with is the one of its last well-formed line. *)
Lemma parse_loop_values k lines vs :
  occurs k lines vs ->
  forall start v d m v' d' m',
    for_each ValidateEnv.parse_line (enumerate start lines) (v, d, m)
    = Ok (v', d', m') ->
    PyDict.get v' k = last (map Some vs) (PyDict.get v k).
Proof.
  induction 1 as [|l ls x vs Ha _ IH|l ls vs Hn _ IH];
    intros start v d m v' d' m'; simpl.
  - now intros [= <- <- <-].
  - destruct (parse_line_cases v d m start l)
      as [[Hs E]|[[Hm E]|(k' & x' & Ha' & E)]]; rewrite E; simpl; intros H.
    + apply assigns_shape in Ha. tauto.
    + exfalso. now apply (assigns_not_malformed _ _ _ Ha).
    + destruct (assigns_functional _ _ _ _ _ Ha Ha') as [<- <-].
      apply IH in H. rewrite H, get_setitem_same.
      symmetry. apply last_cons.
  - destruct (parse_line_cases v d m start l)
      as [[Hs E]|[[Hm E]|(k' & x' & Ha' & E)]]; rewrite E; simpl; intros H;
      apply IH in H; rewrite H; try reflexivity.
    rewrite get_setitem_other; [reflexivity|].
    intros ->. now apply (Hn x').
Qed.

Lemma count_occ_snoc (l : list str) (x k : str) :
  count_occ str_eq_dec (l ++ [x]) k
  = count_occ str_eq_dec l k + (if str_eq_dec x k then 1 else 0).
Proof.
  rewrite count_occ_app. simpl. now destruct (str_eq_dec x k).
Qed.

(** A key with [n] well-formed lines is entered [n - 1] times in the
    duplicates, or [n] times if it was already stored. *)
Lemma parse_loop_duplicates k lines vs :
  occurs k lines vs ->
  forall start v d m v' d' m',
    for_each ValidateEnv.parse_line (enumerate start lines) (v, d, m)
    = Ok (v', d', m') ->
    count_occ str_eq_dec d' k
    = count_occ str_eq_dec d k
      + (if PyDict.has v k then List.length vs else List.length vs - 1).
Proof.
  induction 1 as [|l ls x vs Ha _ IH|l ls vs Hn _ IH];
    intros start v d m v' d' m'; simpl.
  - intros [= <- <- <-]. destruct (PyDict.has v k); lia.
  - destruct (parse_line_cases v d m start l)
      as [[Hs E]|[[Hm E]|(k' & x' & Ha' & E)]]; rewrite E; simpl; intros H.
    + apply assigns_shape in Ha. tauto.
    + exfalso. now apply (assigns_not_malformed _ _ _ Ha).
    + destruct (assigns_functional _ _ _ _ _ Ha Ha') as [<- <-].
      apply IH in H. rewrite H.
      assert (Hh : PyDict.has (PyDict.setitem v k x) k = true)
        by (apply has_get; exists x; apply get_setitem_same).
      rewrite Hh. destruct (PyDict.has v k).
      * rewrite count_occ_snoc. destruct (str_eq_dec k k); [lia | congruence].
      * lia.
  - destruct (parse_line_cases v d m start l)
      as [[Hs E]|[[Hm E]|(k' & x' & Ha' & E)]]; rewrite E; simpl; intros H;
      apply IH in H; rewrite H; try reflexivity.
    assert (Hk : k' <> k) by (intros ->; now apply (Hn x')).
    assert (Hh : PyDict.has (PyDict.setitem v k' x') k = PyDict.has v k)
      by (unfold PyDict.has; now rewrite get_setitem_other).
    rewrite Hh. destruct (PyDict.has v k').
    + rewrite count_occ_snoc. destruct (str_eq_dec k' k); [contradiction | lia].
    + reflexivity.
Qed.

(** Every duplicate is a stored key. *)
Lemma parse_loop_dup_stored es st st' :
  (forall k, In k (snd (fst st)) -> PyDict.has (fst (fst st)) k = true) ->
  for_each ValidateEnv.parse_line es st = Ok st' ->
  forall k, In k (snd (fst st')) -> PyDict.has (fst (fst st')) k = true.
Proof.
  apply (parse_loop_invariant
           (fun s => forall k, In k (snd (fst s))
                               -> PyDict.has (fst (fst s)) k = true)).
  clear. intros [[v d] m] [idx l] s' HP.
  destruct (parse_line_cases v d m idx l)
    as [[_ E]|[[_ E]|(k' & x' & _ & E)]]; rewrite E; intros [= <-]; simpl in *;
    try exact HP.
  intros k Hin.
  assert (Hmono : PyDict.has v k = true
                  -> PyDict.has (PyDict.setitem v k' x') k = true).
  { unfold PyDict.has. rewrite get_setitem. now destruct (str_eqb k' k). }
  destruct (PyDict.has v k') eqn:Hh.
  - apply in_app_or in Hin as [Hin|[<-|[]]]; auto.
  - auto.
Qed.

(** ** Facts about sorted and set *)

Lemma mem_In (x : str) (l : list str) : mem x l = true <-> In x l.
Proof.
  unfold mem. rewrite existsb_exists. split.
  - intros (y & Hy & E). apply str_eqb_eq in E. now subst.
  - intros H. exists x. split; [exact H | apply str_eqb_refl].
Qed.

Lemma set_In (x : str) (l : list str) : In x (set l) <-> In x l.
Proof.
  induction l as [|y l IH]; simpl; [tauto|].
  destruct (mem y l) eqn:E.
  - apply mem_In in E. rewrite IH. split; [auto|].
    intros [<-|H]; assumption.
  - simpl. now rewrite IH.
Qed.

Lemma set_NoDup (l : list str) : NoDup (set l).
Proof.
  induction l as [|y l IH]; simpl; [constructor|].
  destruct (mem y l) eqn:E; [exact IH|].
  constructor; [|exact IH].
  rewrite set_In. intros H. apply mem_In in H. congruence.
Qed.

Lemma insert_sorted_In (x y : str) (l : list str) :
  In y (insert_sorted x l) <-> y = x \/ In y l.
Proof.
  induction l as [|z l IH]; simpl.
  - intuition.
  - destruct (str_leb x z); simpl; rewrite ?IH; intuition.
Qed.

Lemma sorted_In (x : str) (l : list str) : In x (sorted l) <-> In x l.
Proof.
  induction l as [|y l IH]; simpl; [tauto|].
  rewrite insert_sorted_In, IH. intuition.
Qed.

Lemma insert_sorted_NoDup (x : str) (l : list str) :
  ~ In x l -> NoDup l -> NoDup (insert_sorted x l).
Proof.
  induction l as [|z l IH]; simpl; intros Hx Hl.
  - constructor; [auto | constructor].
  - destruct (str_leb x z).
    + constructor; [simpl; tauto | exact Hl].
    + inversion Hl; subst. constructor.
      * rewrite insert_sorted_In. intros [->|H]; tauto.
      * apply IH; tauto.
Qed.

Lemma sorted_NoDup (l : list str) : NoDup l -> NoDup (sorted l).
Proof.
  induction 1 as [|x l Hx _ IH]; simpl; [constructor|].
  apply insert_sorted_NoDup; [now rewrite sorted_In | exact IH].
Qed.

Lemma str_leb_total (a : str) : forall b,
  str_leb a b = true \/ str_leb b a = true.
Proof.
  induction a as [|x a IH]; intros [|y b]; simpl; auto.
  destruct (ord x <? ord y)%N eqn:E1, (ord y <? ord x)%N eqn:E2; auto.
Qed.

Lemma str_leb_trans (a : str) : forall b c,
  str_leb a b = true -> str_leb b c = true -> str_leb a c = true.
Proof.
  induction a as [|x a IH]; intros [|y b] [|z c]; simpl; auto;
    try discriminate.
  destruct (ord x <? ord y)%N eqn:E1, (ord y <? ord x)%N eqn:E2,
           (ord y <? ord z)%N eqn:E3, (ord z <? ord y)%N eqn:E4,
           (ord x <? ord z)%N eqn:E5, (ord z <? ord x)%N eqn:E6;
    rewrite ?N.ltb_lt, ?N.ltb_ge in *; try lia; try discriminate;
    eauto.
Qed.

Lemma ord_inj x y : ord x = ord y -> x = y.
Proof.
  unfold ord. intros H.
  rewrite <- (ascii_N_embedding x), <- (ascii_N_embedding y). now rewrite H.
Qed.

Lemma str_leb_antisym (a : str) : forall b,
  str_leb a b = true -> str_leb b a = true -> a = b.
Proof.
  induction a as [|x a IH]; intros [|y b]; simpl; auto; try discriminate.
  destruct (ord x <? ord y)%N eqn:E1, (ord y <? ord x)%N eqn:E2;
    rewrite ?N.ltb_lt, ?N.ltb_ge in *; try lia; try discriminate.
  intros H1 H2. f_equal; [apply ord_inj; lia | now apply IH].
Qed.

Lemma insert_sorted_sorted (x : str) (l : list str) :
  StronglySorted (fun a b => str_leb a b = true) l ->
  StronglySorted (fun a b => str_leb a b = true) (insert_sorted x l).
Proof.
  induction 1 as [|z l Hl IH Hz]; simpl.
  - repeat constructor.
  - destruct (str_leb x z) eqn:E.
    + constructor; [now constructor|].
      constructor; [exact E|].
      rewrite Forall_forall in *. intros w Hw.
      apply (str_leb_trans x z w E). auto.
    + constructor; [exact IH|].
      rewrite Forall_forall in *. intros w Hw.
      apply insert_sorted_In in Hw as [->|Hw]; [|auto].
      destruct (str_leb_total x z); congruence.
Qed.

Lemma sorted_sorted (l : list str) :
  StronglySorted (fun a b => str_leb a b = true) (sorted l).
Proof.
  induction l as [|x l IH]; simpl; [constructor|].
  now apply insert_sorted_sorted.
Qed.

Lemma sorted_strict (l : list str) :
  StronglySorted (fun a b => str_leb a b = true) l -> NoDup l ->
  StronglySorted str_lt l.
Proof.
  induction 1 as [|x l Hl IH Hx]; intros Hn; [constructor|].
  inversion Hn; subst. constructor; [auto|].
  rewrite Forall_forall in *. intros w Hw. split; [auto|].
  intros ->. contradiction.
Qed.

(** What [sorted(set(l))] is: the elements of [l], each once, in strictly
    increasing order. *)
Lemma sorted_set_spec (l : list str) :
  NoDup (sorted (set l))
  /\ StronglySorted str_lt (sorted (set l))
  /\ forall x, In x (sorted (set l)) <-> In x l.
Proof.
  assert (Hn : NoDup (sorted (set l))) by (apply sorted_NoDup, set_NoDup).
  split; [exact Hn|]. split.
  - apply sorted_strict; [apply sorted_sorted | exact Hn].
  - intros x. now rewrite sorted_In, set_In.
Qed.

Lemma sorted_set_truthy (l : list str) :
  truthy (sorted (set l)) = truthy l.
Proof.
  destruct (sorted_set_spec l) as (_ & _ & H).
  destruct l as [|x l]; [reflexivity|].
  destruct (sorted (set (x :: l))) as [|y s]; [|reflexivity].
  destruct (proj2 (H x)). now left.
Qed.

(** ** The report of the validator *)

Lemma main_report fs args text values dups mal :
  fs (PyPath.str_of (PyPath.Path (ValidateEnv.env_file args)))
  = ValidateEnv.Readable text ->
  ValidateEnv.parse_env text = Ok (values, dups, mal) ->
  let missing := ValidateEnv.missing_keys values (ValidateEnv.require args) in
  let placeholders := ValidateEnv.placeholder_keys values in
  let clean :=
    negb (truthy mal || truthy dups || truthy missing || truthy placeholders) in
  ValidateEnv.main fs args
  = Ok {| ValidateEnv.stdout :=
            findings values dups mal missing placeholders ++ [verdict clean];
          ValidateEnv.status := if clean then 0%Z else 1%Z |}.
Proof.
  intros Hread Hparse. unfold ValidateEnv.main. rewrite Hread, Hparse.
  cbn [bind]. unfold findings.
  generalize (ValidateEnv.missing_keys values (ValidateEnv.require args)).
  generalize (ValidateEnv.placeholder_keys values).
  intros ph mi. cbv zeta.
  pose proof (sorted_set_truthy dups) as T.
  destruct (sorted (set dups)) as [|k ks];
    destruct dups as [|x dups]; try discriminate T; clear T;
    destruct mal as [|e mal], mi as [|y mi], ph as [|z ph];
    cbn [truthy orb negb block map app verdict];
    rewrite ?app_nil_r; repeat (rewrite <- app_assoc; cbn [app]);
    reflexivity.
Qed.

(** C1.  When the env file exists and is read, the validator exits with status 0 and the
    pass message exactly when the malformed lines, the duplicate keys, the
    missing required keys and the placeholder keys are all empty, and with
    status 1 and the fail message otherwise; in both cases all four are
    computed and the report holds the block of each one that is not empty. *)
Theorem C1_validator_outcome fs args text :
  fs (PyPath.str_of (PyPath.Path (ValidateEnv.env_file args)))
  = ValidateEnv.Readable text ->
  exists values dups mal run,
    ValidateEnv.parse_env text = Ok (values, dups, mal)
    /\ ValidateEnv.main fs args = Ok run
    /\ let missing :=
         ValidateEnv.missing_keys values (ValidateEnv.require args) in
       let placeholders := ValidateEnv.placeholder_keys values in
       let all_empty :=
         mal = [] /\ dups = [] /\ missing = [] /\ placeholders = [] in
       (all_empty ->
        ValidateEnv.status run = 0%Z
        /\ last (ValidateEnv.stdout run) [] = LF :: lit "[OK] Env validation passed.")
       /\ (~ all_empty ->
           ValidateEnv.status run = 1%Z
           /\ last (ValidateEnv.stdout run) []
              = LF :: lit "[FAIL] Env validation failed.")
       /\ removelast (ValidateEnv.stdout run)
          = [lit "Parsed keys: " ++ of_nat (List.length values)]
            ++ block "Malformed lines:" (map malformed_item mal)
            ++ block "Duplicate keys:" (map bullet (sorted (set dups)))
            ++ block "Missing required keys:" (map bullet missing)
            ++ block "Potential placeholder values detected:"
                     (map bullet placeholders).
Proof.
  intros Hread.
  destruct (parse_env_total text) as (values & dups & mal & Hparse).
  exists values, dups, mal. eexists. split; [exact Hparse|].
  split; [exact (main_report _ _ _ _ _ _ Hread Hparse)|].
  cbv zeta. cbn [ValidateEnv.status ValidateEnv.stdout].
  rewrite last_last, removelast_last.
  set (mi := ValidateEnv.missing_keys values (ValidateEnv.require args)).
  set (ph := ValidateEnv.placeholder_keys values).
  split; [|split; [|reflexivity]].
  - intros (-> & -> & -> & ->). split; reflexivity.
  - intros Hne.
    destruct (truthy mal || truthy dups || truthy mi || truthy ph) eqn:E;
      [split; reflexivity|].
    rewrite !orb_false_iff, !truthy_false in E. tauto.
Qed.

Lemma C1_validator_outcome_witness :
  exists run,
    ValidateEnv.main (fun _ => ValidateEnv.Readable (lit "A=1" ++ [LF] ++ lit "A=example"))
                     {| ValidateEnv.env_file := lit ".env";
                        ValidateEnv.require := [lit "B"] |}
    = Ok run
    /\ ValidateEnv.status run = 1%Z.
Proof.
  destruct (C1_validator_outcome
              (fun _ => ValidateEnv.Readable (lit "A=1" ++ [LF] ++ lit "A=example"))
              {| ValidateEnv.env_file := lit ".env";
                 ValidateEnv.require := [lit "B"] |}
              (lit "A=1" ++ [LF] ++ lit "A=example") eq_refl)
    as (values & dups & mal & run & Hp & Hm & _ & Hfail & _).
  exists run. split; [exact Hm|].
  apply Hfail. vm_compute in Hp. injection Hp as <- <- <-.
  intros (_ & H & _). discriminate H.
Defined.

(** ** Lines and keys *)

(** Whether a line assigns can be read off one run of the loop body. *)
Lemma assigns_parse_line (l k v : str) :
  assigns l k v
  <-> ValidateEnv.parse_line ([], [], []) (0, l) = Ok ([(k, v)], [], []).
Proof.
  destruct (parse_line_cases [] [] [] 0 l)
    as [[Hs E]|[[Hm E]|(k' & v' & Ha & E)]]; simpl in E; split; intros H;
    try (pose proof (eq_trans (eq_sym E) H) as Q; clear E H).
  - apply assigns_shape in H. tauto.
  - discriminate Q.
  - exfalso. now apply (assigns_not_malformed _ _ _ H).
  - discriminate Q.
  - destruct (assigns_functional _ _ _ _ _ Ha H) as [-> ->]. exact E.
  - injection Q as <- <-. exact Ha.
Qed.

Lemma assigns_dec (l k : str) :
  (exists v, assigns l k v) \/ (forall v, ~ assigns l k v).
Proof.
  destruct (parse_line_cases [] [] [] 0 l)
    as [[Hs _]|[[Hm _]|(k' & v' & Ha & _)]].
  - right. intros v Ha. apply assigns_shape in Ha. tauto.
  - right. intros v Ha. now apply (assigns_not_malformed _ _ _ Ha).
  - destruct (str_eq_dec k' k) as [<-|Hne].
    + left. now exists v'.
    + right. intros v Ha'.
      destruct (assigns_functional _ _ _ _ _ Ha Ha'). contradiction.
Qed.

Lemma occurs_exists (k : str) (lines : list str) : exists vs, occurs k lines vs.
Proof.
  induction lines as [|l lines [vs IH]].
  - exists []. constructor.
  - destruct (assigns_dec l k) as [[v Ha]|Hn].
    + exists (v :: vs). now constructor.
    + exists vs. now constructor.
Qed.

Lemma occurs_app (k : str) (l1 l2 v1 v2 : list str) :
  occurs k l1 v1 -> occurs k l2 v2 -> occurs k (l1 ++ l2) (v1 ++ v2).
Proof.
  induction 1; intros H2; simpl; [exact H2 | |].
  - constructor; auto.
  - apply occurs_skip; auto.
Qed.

Lemma occurs_none (k : str) (lines : list str) :
  (forall l v, In l lines -> ~ assigns l k v) -> occurs k lines [].
Proof.
  induction lines as [|l lines IH]; intros H; [constructor|].
  apply occurs_skip.
  - intros v. apply H. now left.
  - apply IH. intros l' v Hin. apply H. now right.
Qed.

(** The values of a key whose last well-formed line is [l], with value [v]. *)
Lemma occurs_last (k v l : str) (ls1 ls2 : list str) :
  assigns l k v ->
  (forall l' v', In l' ls2 -> ~ assigns l' k v') ->
  exists vs, occurs k (ls1 ++ l :: ls2) (vs ++ [v]).
Proof.
  intros Ha Hn. destruct (occurs_exists k ls1) as [vs Hvs].
  exists vs. apply occurs_app; [exact Hvs|].
  constructor; [exact Ha | now apply occurs_none].
Qed.

Lemma last_map_Some {A : Type} (l : list A) (x : A) (d : option A) :
  last (map Some (l ++ [x])) d = Some x.
Proof. rewrite map_app. simpl. apply last_last. Qed.

(** *** The stored keys are distinct *)

Lemma keys_setitem (d : PyDict.dict) (k v : str) :
  PyDict.keys (PyDict.setitem d k v)
  = if PyDict.has d k then PyDict.keys d else PyDict.keys d ++ [k].
Proof.
  unfold PyDict.keys, PyDict.has.
  induction d as [|[k0 v0] d IH]; simpl; [reflexivity|].
  destruct (str_eqb k0 k) eqn:E; simpl; [reflexivity|].
  rewrite IH. now destruct (PyDict.get d k).
Qed.

Lemma setitem_NoDup (d : PyDict.dict) (k v : str) :
  NoDup (PyDict.keys d) -> NoDup (PyDict.keys (PyDict.setitem d k v)).
Proof.
  intros H. rewrite keys_setitem. destruct (PyDict.has d k) eqn:E; [exact H|].
  apply NoDup_app; [exact H | repeat constructor; auto |].
  intros x Hx [<-|[]]. apply has_keys in Hx. congruence.
Qed.

Lemma parse_loop_keys_NoDup es st st' :
  NoDup (PyDict.keys (fst (fst st))) ->
  for_each ValidateEnv.parse_line es st = Ok st' ->
  NoDup (PyDict.keys (fst (fst st'))).
Proof.
  apply (parse_loop_invariant (fun s => NoDup (PyDict.keys (fst (fst s))))).
  clear. intros [[v d] m] [idx l] s' HP.
  destruct (parse_line_cases v d m idx l)
    as [[_ E]|[[_ E]|(k' & x' & _ & E)]]; rewrite E; intros [= <-]; simpl in *;
    try exact HP.
  now apply setitem_NoDup.
Qed.

Lemma In_get (d : PyDict.dict) (k v : str) :
  NoDup (PyDict.keys d) -> In (k, v) d -> PyDict.get d k = Some v.
Proof.
  unfold PyDict.keys.
  induction d as [|[k0 v0] d IH]; simpl; intros Hn Hin; [contradiction|].
  inversion Hn as [|? ? Hk Hd]; subst.
  destruct Hin as [[= -> ->]|Hin].
  - now rewrite str_eqb_refl.
  - destruct (str_eqb k0 k) eqn:E; [|now apply IH].
    apply str_eqb_eq in E. subst k0. exfalso. apply Hk.
    apply in_map_iff. now exists (k, v).
Qed.

(** A key is printed as a placeholder only for a stored, non-empty value that
    the detector flags. *)
Lemma placeholder_keys_In (values : PyDict.dict) (k : str) :
  In k (ValidateEnv.placeholder_keys values)
  <-> exists v, In (k, v) values /\ v <> []
                /\ ValidateEnv.is_placeholder v = true.
Proof.
  unfold ValidateEnv.placeholder_keys. rewrite in_map_iff. split.
  - intros ([k' v] & <- & H). apply filter_In in H as [Hin H].
    apply andb_true_iff in H as [H1 H2]. simpl in *.
    exists v. split; [exact Hin|]. split; [now apply truthy_true | exact H2].
  - intros (v & Hin & Hv & Hp). exists (k, v). split; [reflexivity|].
    apply filter_In. split; [exact Hin|]. simpl.
    apply andb_true_iff. split; [now apply truthy_true | exact Hp].
Qed.

Lemma missing_keys_In (values : PyDict.dict) (required : list str) (k : str) :
  In k (ValidateEnv.missing_keys values required)
  <-> In k required
      /\ (PyDict.get values k = None \/ PyDict.get values k = Some []).
Proof.
  unfold ValidateEnv.missing_keys, ValidateEnv.is_missing.
  rewrite filter_In.
  destruct (PyDict.get values k) as [v|]; [|intuition].
  rewrite negb_true_iff, truthy_false. split.
  - intros [H ->]. auto.
  - intros [H [E|[= ->]]]; [discriminate | auto].
Qed.

Lemma parse_line_assigns values dups mal idx (l k v : str) :
  assigns l k v ->
  ValidateEnv.parse_line (values, dups, mal) (idx, l)
  = Ok (PyDict.setitem values k v,
        (if PyDict.has values k then dups ++ [k] else dups),
        mal).
Proof.
  intros Ha.
  destruct (parse_line_cases values dups mal idx l)
    as [[Hs E]|[[Hm E]|(k' & v' & Ha' & E)]].
  - apply assigns_shape in Ha. tauto.
  - exfalso. now apply (assigns_not_malformed _ _ _ Ha).
  - destruct (assigns_functional _ _ _ _ _ Ha Ha') as [<- <-]. exact E.
Qed.

Lemma last_map_Some_nonempty {A : Type} (l : list A) :
  forall d d', l <> [] -> last (map Some l) d = Some (last l d').
Proof.
  induction l as [|a l IH]; intros d d' H; [contradiction|].
  destruct l as [|b l]; [reflexivity|].
  change (last (map Some (b :: l)) d = Some (last (b :: l) d')).
  now apply IH.
Qed.

(** What [parse_env] returns for a key, from the values its well-formed
    lines give it. *)
Lemma parse_env_occurs text k vs values dups mal :
  ValidateEnv.parse_env text = Ok (values, dups, mal) ->
  occurs k (splitlines text) vs ->
  PyDict.get values k = last (map Some vs) None
  /\ count_occ str_eq_dec dups k = List.length vs - 1.
Proof.
  intros Hp Hocc. unfold ValidateEnv.parse_env in Hp. split.
  - exact (parse_loop_values _ _ _ Hocc _ _ _ _ _ _ _ Hp).
  - exact (parse_loop_duplicates _ _ _ Hocc _ _ _ _ _ _ _ Hp).
Qed.

Lemma parse_env_malformed text values dups mal :
  ValidateEnv.parse_env text = Ok (values, dups, mal) ->
  StronglySorted lt (map fst mal)
  /\ forall n l,
       In (n, l) mal
       <-> (1 <= n /\ nth_error (splitlines text) (n - 1) = Some l
            /\ malformed_line l).
Proof.
  intros Hp. unfold ValidateEnv.parse_env in Hp.
  apply parse_loop_malformed in Hp as (extra & -> & Hs & Hx). auto.
Qed.

(** ** The claims on the env validator *)

(** C2.  When a key has two or more well-formed lines in the env file, the
    mapping binds it to the value of the last of them, the duplicates list
    holds it once for every such line after the first, and the report prints
    under its duplicate-key title each duplicated key once, in sorted
    order. *)
Theorem C2_duplicate_keys fs args text k vs :
  fs (PyPath.str_of (PyPath.Path (ValidateEnv.env_file args)))
  = ValidateEnv.Readable text ->
  occurs k (splitlines text) vs ->
  2 <= List.length vs ->
  exists values dups mal run,
    ValidateEnv.parse_env text = Ok (values, dups, mal)
    /\ ValidateEnv.main fs args = Ok run
    /\ PyDict.get values k = Some (last vs [])
    /\ count_occ str_eq_dec dups k = List.length vs - 1
    /\ exists ks,
         ValidateEnv.stdout run
         = ([lit "Parsed keys: " ++ of_nat (List.length values)]
            ++ block "Malformed lines:" (map malformed_item mal))
           ++ ((LF :: lit "Duplicate keys:") :: map bullet ks)
           ++ block "Missing required keys:"
                (map bullet (ValidateEnv.missing_keys values
                               (ValidateEnv.require args)))
           ++ block "Potential placeholder values detected:"
                (map bullet (ValidateEnv.placeholder_keys values))
           ++ [LF :: lit "[FAIL] Env validation failed."]
         /\ StronglySorted str_lt ks
         /\ (forall x, In x dups -> count_occ str_eq_dec ks x = 1)
         /\ (forall x, In x ks -> In x dups).
Proof.
  intros Hread Hocc Hlen.
  destruct (parse_env_total text) as (values & dups & mal & Hp).
  exists values, dups, mal. eexists. split; [exact Hp|].
  split; [exact (main_report _ _ _ _ _ _ Hread Hp)|].
  destruct (parse_env_occurs _ _ _ _ _ _ Hp Hocc) as [Hv Hd].
  split.
  { rewrite Hv. apply last_map_Some_nonempty.
    intros ->. simpl in Hlen. lia. }
  split; [exact Hd|].
  exists (sorted (set dups)).
  destruct (sorted_set_spec dups) as (Hnd & Hs & Hin).
  assert (Hk : In k dups).
  { apply (count_occ_In str_eq_dec). lia. }
  split; [|split; [exact Hs | split]].
  - cbn [ValidateEnv.stdout]. unfold findings.
    pose proof (sorted_set_truthy dups) as T.
    destruct dups as [|x dups]; [contradiction|].
    destruct (sorted (set (x :: dups))) as [|y ks]; [discriminate T|].
    cbn [truthy]. rewrite orb_true_r. cbn [orb negb verdict block map].
    repeat (rewrite <- app_assoc; cbn [app]). reflexivity.
  - intros x Hx. apply NoDup_count_occ'; [exact Hnd | now apply Hin].
  - intros x. apply Hin.
Qed.

Lemma C2_duplicate_keys_witness :
  exists values dups mal,
    ValidateEnv.parse_env (lit "A=1" ++ [LF] ++ lit "A=2" ++ [LF])
    = Ok (values, dups, mal)
    /\ PyDict.get values (lit "A") = Some (lit "2")
    /\ count_occ str_eq_dec dups (lit "A") = 1.
Proof.
  destruct (C2_duplicate_keys
              (fun _ => ValidateEnv.Readable (lit "A=1" ++ [LF] ++ lit "A=2" ++ [LF]))
              {| ValidateEnv.env_file := lit ".env";
                 ValidateEnv.require := [] |}
              (lit "A=1" ++ [LF] ++ lit "A=2" ++ [LF])
              (lit "A") [lit "1"; lit "2"] eq_refl)
    as (values & dups & mal & run & Hp & _ & Hv & Hd & _).
  - change (splitlines (lit "A=1" ++ [LF] ++ lit "A=2" ++ [LF]))
      with [lit "A=1"; lit "A=2"].
    constructor; [now apply assigns_parse_line|].
    constructor; [now apply assigns_parse_line|].
    constructor.
  - simpl. lia.
  - exists values, dups, mal. auto.
Defined.

(** C3.  A line that is neither blank nor a comment once trimmed is recorded
    as malformed exactly when the trimmed line has no [=] or what stands
    before its first [=], trimmed, is no key name.  A record holds the line
    number, counted from 1, and the untrimmed text; the records follow the
    order of the file, whatever lines came before. *)
Theorem C3_malformed_lines text :
  exists values dups mal,
    ValidateEnv.parse_env text = Ok (values, dups, mal)
    /\ (forall i l,
          nth_error (splitlines text) i = Some l ->
          ~ blank l -> ~ comment l ->
          (In (S i, l) mal
           <-> (~ In "="%char (strip l)
                \/ exists pre post,
                     first_eq (strip l) pre post /\ ~ key_name (strip pre))))
    /\ (forall n l,
          In (n, l) mal ->
          1 <= n /\ nth_error (splitlines text) (n - 1) = Some l)
    /\ StronglySorted lt (map fst mal).
Proof.
  destruct (parse_env_total text) as (values & dups & mal & Hp).
  exists values, dups, mal. split; [exact Hp|].
  destruct (parse_env_malformed _ _ _ _ Hp) as [Hs Hx].
  split; [|split; [|exact Hs]].
  - intros i l Hi Hb Hc. rewrite Hx. simpl. rewrite Nat.sub_0_r.
    unfold malformed_line, bad_shape. split.
    + intros (_ & _ & _ & _ & H). exact H.
    + intros H. split; [lia|]. auto.
  - intros n l H. apply Hx in H. tauto.
Qed.

Lemma C3_malformed_lines_witness :
  exists values dups mal,
    ValidateEnv.parse_env
      (lit "A=1" ++ [LF] ++ lit "not a valid line at all" ++ [LF] ++ lit "B=2")
    = Ok (values, dups, mal)
    /\ In (2, lit "not a valid line at all") mal
    /\ PyDict.get values (lit "B") = Some (lit "2").
Proof.
  destruct (C3_malformed_lines
              (lit "A=1" ++ [LF] ++ lit "not a valid line at all" ++ [LF]
               ++ lit "B=2"))
    as (values & dups & mal & Hp & Hiff & _).
  exists values, dups, mal. split; [exact Hp|]. split.
  - apply (Hiff 1 (lit "not a valid line at all")).
    + reflexivity.
    + discriminate.
    + intros [r H]. discriminate H.
    + left. vm_compute. intuition discriminate.
  - vm_compute in Hp. injection Hp as <- _ _. reflexivity.
Defined.

(** C4.  A required key is reported missing exactly when the mapping does
    not hold it or holds it with the empty value.  In particular, when the
    last well-formed line of a key gives it the empty value (as [KEY=] does),
    the key is missing if it is required, it is not among the placeholder
    keys, and the line is not among the malformed ones. *)
Theorem C4_missing_required_keys text required :
  exists values dups mal,
    ValidateEnv.parse_env text = Ok (values, dups, mal)
    /\ (forall k,
          In k (ValidateEnv.missing_keys values required)
          <-> In k required
              /\ (PyDict.get values k = None \/ PyDict.get values k = Some []))
    /\ (forall ls1 l ls2 k,
          splitlines text = ls1 ++ l :: ls2 ->
          assigns l k [] ->
          (forall l' v', In l' ls2 -> ~ assigns l' k v') ->
          (In k required -> In k (ValidateEnv.missing_keys values required))
          /\ ~ In k (ValidateEnv.placeholder_keys values)
          /\ forall n, ~ In (n, l) mal).
Proof.
  destruct (parse_env_total text) as (values & dups & mal & Hp).
  exists values, dups, mal. split; [exact Hp|].
  split; [intros k; apply missing_keys_In|].
  intros ls1 l ls2 k Hl Ha Hlater.
  destruct (occurs_last k [] l ls1 ls2 Ha Hlater) as [vs Hocc].
  rewrite <- Hl in Hocc.
  destruct (parse_env_occurs _ _ _ _ _ _ Hp Hocc) as [Hv _].
  rewrite last_map_Some in Hv.
  split; [|split].
  - intros Hr. apply missing_keys_In. auto.
  - intros Hin. apply placeholder_keys_In in Hin as (v & Hin & Hne & _).
    apply In_get in Hin.
    + rewrite Hv in Hin. injection Hin as <-. now apply Hne.
    + apply (parse_loop_keys_NoDup _ ([], [], []) _ (NoDup_nil _) Hp).
  - intros n Hin. apply (parse_env_malformed _ _ _ _ Hp) in Hin.
    now apply (assigns_not_malformed _ _ _ Ha).
Qed.

Lemma C4_missing_required_keys_witness :
  exists values dups mal,
    ValidateEnv.parse_env (lit "KEY=changeme" ++ [LF] ++ lit "KEY=")
    = Ok (values, dups, mal)
    /\ In (lit "KEY") (ValidateEnv.missing_keys values [lit "KEY"])
    /\ ~ In (lit "KEY") (ValidateEnv.placeholder_keys values)
    /\ ~ In (2, lit "KEY=") mal.
Proof.
  destruct (C4_missing_required_keys
              (lit "KEY=changeme" ++ [LF] ++ lit "KEY=") [lit "KEY"])
    as (values & dups & mal & Hp & _ & H).
  exists values, dups, mal. split; [exact Hp|].
  destruct (H [lit "KEY=changeme"] (lit "KEY=") [] (lit "KEY"))
    as (H1 & H2 & H3).
  - reflexivity.
  - now apply assigns_parse_line.
  - intros l' v' [].
  - split; [apply H1; now left|]. split; [exact H2 | apply H3].
Defined.

(** C5.  The detector flags a value exactly when its lower-cased form holds
    one of the seven fixed patterns as a substring.  The empty value is not
    flagged, and no key with an empty value is reported as a placeholder. *)
Theorem C5_placeholder_detector :
  (forall v,
     ValidateEnv.is_placeholder v = true
     <-> exists p, seven_patterns p /\ infix p (lower v))
  /\ ValidateEnv.is_placeholder [] = false
  /\ (forall values k,
        In k (ValidateEnv.placeholder_keys values) ->
        exists v, In (k, v) values /\ v <> []
                  /\ ValidateEnv.is_placeholder v = true).
Proof.
  split; [|split].
  - intros v. unfold ValidateEnv.is_placeholder. rewrite existsb_exists.
    split; intros (p & Hp & Hi); exists p.
    + apply contains_infix in Hi. split; [|exact Hi].
      unfold seven_patterns. simpl in Hp.
      repeat (destruct Hp as [<-|Hp]; [tauto|]). contradiction.
    + split; [|now apply contains_infix].
      unfold seven_patterns in Hp. simpl.
      repeat (destruct Hp as [->|Hp]; [tauto|]). subst p. tauto.
  - reflexivity.
  - intros values k. apply placeholder_keys_In.
Qed.

(** C8.  A line whose trimmed form has a key name before its first [=] is
    stored under that key, trimmed, with everything after the first [=],
    trimmed, as its value, further [=] included; the mapping returned for the
    file binds the key to that value when no later line assigns the key. *)
Theorem C8_split_on_first_equals text ls1 l ls2 pre post :
  splitlines text = ls1 ++ l :: ls2 ->
  first_eq (strip l) pre post ->
  key_name (strip pre) ->
  (forall l' v', In l' ls2 -> ~ assigns l' (strip pre) v') ->
  (forall values dups mal idx,
     ValidateEnv.parse_line (values, dups, mal) (idx, l)
     = Ok (PyDict.setitem values (strip pre) (strip post),
           (if PyDict.has values (strip pre) then dups ++ [strip pre]
            else dups),
           mal))
  /\ exists values dups mal,
       ValidateEnv.parse_env text = Ok (values, dups, mal)
       /\ PyDict.get values (strip pre) = Some (strip post).
Proof.
  intros Hl Hfirst Hkey Hlater.
  assert (Ha : assigns l (strip pre) (strip post)).
  { exists pre, post. auto. }
  split.
  - intros values dups mal idx. now apply parse_line_assigns.
  - destruct (parse_env_total text) as (values & dups & mal & Hp).
    exists values, dups, mal. split; [exact Hp|].
    destruct (occurs_last _ _ l ls1 ls2 Ha Hlater) as [vs Hocc].
    rewrite <- Hl in Hocc.
    destruct (parse_env_occurs _ _ _ _ _ _ Hp Hocc) as [Hv _].
    now rewrite last_map_Some in Hv.
Qed.

Lemma C8_split_on_first_equals_witness :
  exists values dups mal,
    ValidateEnv.parse_env (lit "# db" ++ [LF] ++ lit "  URL = a=b=c  ")
    = Ok (values, dups, mal)
    /\ PyDict.get values (lit "URL") = Some (lit "a=b=c").
Proof.
  destruct (C8_split_on_first_equals
              (lit "# db" ++ [LF] ++ lit "  URL = a=b=c  ")
              [lit "# db"] (lit "  URL = a=b=c  ") []
              (lit "URL ") (lit " a=b=c"))
    as (_ & values & dups & mal & Hp & Hv).
  - reflexivity.
  - split; [reflexivity|]. simpl. intuition discriminate.
  - apply KEY_RE_strip. reflexivity.
  - intros l' v' [].
  - exists values, dups, mal. split; [exact Hp | exact Hv].
Defined.

(** C9.  Every key in the duplicates list that [parse_env] returns is a key
    of the mapping it returns. *)
Theorem C9_duplicates_are_stored text :
  exists values dups mal,
    ValidateEnv.parse_env text = Ok (values, dups, mal)
    /\ forall k, In k dups -> In k (PyDict.keys values).
Proof.
  destruct (parse_env_total text) as (values & dups & mal & Hp).
  exists values, dups, mal. split; [exact Hp|].
  intros k Hk. apply has_keys.
  apply (parse_loop_dup_stored _ ([], [], []) _
           (fun k (H : In k []) => match H with end) Hp k Hk).
Qed.

(** ** Facts about the rollout planner *)

Lemma str_eqb_sym (a b : str) : str_eqb a b = str_eqb b a.
Proof.
  destruct (str_eqb a b) eqn:E, (str_eqb b a) eqn:E'; try reflexivity.
  - apply str_eqb_eq in E. subst. now rewrite str_eqb_refl in E'.
  - apply str_eqb_eq in E'. subst. now rewrite str_eqb_refl in E.
Qed.

Lemma has_channel_iff (c : str) :
  PyDict.has PlanRollout.CHANNEL_LINKS c = true <-> valid_channel c.
Proof.
  rewrite has_keys. unfold valid_channel. simpl. intuition.
Qed.

Lemma valid_channelb_iff (c : str) : valid_channelb c = true <-> valid_channel c.
Proof.
  unfold valid_channelb, valid_channel. rewrite mem_In. simpl. intuition.
Qed.

Lemma has_channel_b (c : str) :
  PyDict.has PlanRollout.CHANNEL_LINKS c = valid_channelb c.
Proof.
  pose proof (has_channel_iff c) as H1.
  pose proof (valid_channelb_iff c) as H2.
  destruct (PyDict.has PlanRollout.CHANNEL_LINKS c), (valid_channelb c);
    try reflexivity.
  - symmetry. apply H2, H1. reflexivity.
  - apply H1, H2. reflexivity.
Qed.

Lemma has_provider_iff (p : str) :
  In p (PyDict.keys PlanRollout.PROVIDER_LINKS) <-> valid_provider p.
Proof. unfold valid_provider. simpl. intuition. Qed.

Lemma filter_nil_iff {A : Type} (f : A -> bool) (l : list A) :
  filter f l = [] <-> Forall (fun x => f x = false) l.
Proof.
  induction l as [|x l IH]; simpl.
  - split; auto.
  - destruct (f x) eqn:E.
    + split; [discriminate|]. intros H. inversion H; congruence.
    + rewrite IH. split; [now constructor|]. intros H. now inversion H.
Qed.

Lemma join_infix (sep : str) (l : list str) (x : str) :
  In x l -> infix x (join sep l).
Proof.
  induction l as [|p l IH]; [contradiction|]. intros Hin.
  destruct l as [|q l].
  - destruct Hin as [->|[]]. exists [], []. simpl. now rewrite app_nil_r.
  - change (join sep (p :: q :: l)) with (p ++ sep ++ join sep (q :: l)).
    destruct Hin as [->|Hin].
    + exists [], (sep ++ join sep (q :: l)). reflexivity.
    + destruct (IH Hin) as (a & b & E). rewrite E.
      exists (p ++ sep ++ a), b. now rewrite <- !app_assoc.
Qed.

(** [parse_channels] in terms of the identifiers of the input. *)
Lemma parse_channels_eq (raw : str) :
  let ids := identifiers (split "," raw) in
  let offending := filter (fun c => negb (valid_channelb c)) ids in
  PlanRollout.parse_channels raw
  = if truthy offending
    then Raise (ValueError (lit "Unsupported channels: "
                            ++ join (lit ", ") offending))
    else Ok ids.
Proof.
  unfold PlanRollout.parse_channels, identifiers. cbv zeta.
  rewrite (filter_ext (fun c => negb (PyDict.has PlanRollout.CHANNEL_LINKS c))
                      (fun c => negb (valid_channelb c)))
    by (intros c; now rewrite has_channel_b).
  reflexivity.
Qed.

Lemma offending_nil_iff (ids : list str) :
  filter (fun c => negb (valid_channelb c)) ids = []
  <-> Forall valid_channel ids.
Proof.
  rewrite filter_nil_iff. split; intros H; eapply Forall_impl; try exact H;
    intros c; simpl; rewrite negb_false_iff; apply valid_channelb_iff.
Qed.

(** C6.  For an input made of the comma-separated segments [segs], channel
    parsing returns the identifiers of the segments (trimmed, lower-cased,
    empty ones left out, in order) when all of them are channels, the empty
    list for the empty input, and fails otherwise with one error whose
    message joins all the identifiers that are not channels. *)
Theorem C6_parse_channels raw segs :
  segments raw segs ->
  let ids := identifiers segs in
  let offending := filter (fun c => negb (valid_channelb c)) ids in
  (Forall valid_channel ids -> PlanRollout.parse_channels raw = Ok ids)
  /\ (~ Forall valid_channel ids ->
      PlanRollout.parse_channels raw
      = Raise (ValueError (lit "Unsupported channels: "
                           ++ join (lit ", ") offending))
      /\ forall c, In c ids -> ~ valid_channel c ->
                   In c offending /\ infix c (join (lit ", ") offending))
  /\ PlanRollout.parse_channels [] = Ok [].
Proof.
  intros (Hne & -> & Hsep). cbv zeta.
  rewrite parse_channels_eq. cbv zeta. rewrite (split_join _ _ Hne Hsep).
  split; [|split].
  - intros H. apply offending_nil_iff in H. now rewrite H.
  - intros H.
    destruct (filter (fun c => negb (valid_channelb c)) (identifiers segs))
      as [|x off] eqn:E.
    + apply offending_nil_iff in E. contradiction.
    + split; [reflexivity|]. intros c Hc Hv.
      assert (Hin : In c (x :: off)).
      { rewrite <- E. apply filter_In. split; [exact Hc|].
        apply negb_true_iff. destruct (valid_channelb c) eqn:V; [|reflexivity].
        apply valid_channelb_iff in V. contradiction. }
      split; [exact Hin | now apply join_infix].
  - reflexivity.
Qed.

Lemma C6_parse_channels_witness :
  PlanRollout.parse_channels (lit " Telegram , DISCORD ")
  = Ok [lit "telegram"; lit "discord"]
  /\ PlanRollout.parse_channels (lit "telegram,bogus1,,bogus2")
     = Raise (ValueError (lit "Unsupported channels: bogus1, bogus2")).
Proof.
  split.
  - apply (C6_parse_channels (lit " Telegram , DISCORD ")
                             [lit " Telegram "; lit " DISCORD "]).
    + split; [discriminate|]. split; [reflexivity|].
      repeat constructor; simpl; intuition discriminate.
    + vm_compute.
      constructor; [left; reflexivity|].
      constructor; [right; left; reflexivity | constructor].
  - apply (C6_parse_channels (lit "telegram,bogus1,,bogus2")
                             [lit "telegram"; lit "bogus1"; lit ""; lit "bogus2"]).
    + split; [discriminate|]. split; [reflexivity|].
      repeat constructor; simpl; intuition discriminate.
    + intros H. inversion H as [|? ? _ H']. inversion H' as [|? ? Hb _].
      destruct Hb as [Hb|[Hb|Hb]]; discriminate Hb.
Defined.

(** *** Sections of a rendered document *)

Lemma one_line_split (l : str) : one_line l = true -> split LF l = [l].
Proof.
  intros H. apply split_none. intros Hin.
  unfold one_line in H. apply negb_true_iff in H.
  assert (E : existsb (Ascii.eqb LF) l = true).
  { apply existsb_exists. exists LF. split; [exact Hin | apply Ascii.eqb_refl]. }
  congruence.
Qed.

Lemma one_line_flat (ls : list str) :
  forallb one_line ls = true -> flat_map (split LF) ls = ls.
Proof.
  induction ls as [|l ls IH]; simpl; [reflexivity|].
  rewrite andb_true_iff. intros [Hl Hls].
  now rewrite (one_line_split _ Hl), IH.
Qed.

Lemma section_of_none (h : str) (ls : list str) :
  forallb (fun l => negb (str_eqb l h)) ls = true -> section_of h ls = None.
Proof.
  induction ls as [|l ls IH]; simpl; [reflexivity|].
  rewrite andb_true_iff, negb_true_iff. intros [Hl Hls].
  now rewrite IH, Hl.
Qed.

Lemma section_of_last (h : str) (before rest : list str) :
  forallb (fun l => negb (str_eqb l h)) rest = true ->
  section_of h (before ++ h :: rest) = Some (until_blank rest).
Proof.
  intros H. induction before as [|x before IH]; simpl.
  - now rewrite (section_of_none _ _ H), str_eqb_refl.
  - now rewrite IH.
Qed.

Lemma until_blank_app (body rest : list str) :
  forallb truthy body = true -> until_blank (body ++ [] :: rest) = body.
Proof.
  induction body as [|l body IH]; simpl; [reflexivity|].
  rewrite andb_true_iff. intros [Hl Hb]. now rewrite Hl, IH.
Qed.

Lemma section_line_parts (h : str) (body : list str) :
  forallb (section_line h) body = true ->
  forallb one_line body = true
  /\ forallb truthy body = true
  /\ forallb (fun l => negb (str_eqb l h)) body = true.
Proof.
  induction body as [|l body IH]; simpl; [auto|].
  unfold section_line at 1. rewrite !andb_true_iff.
  intros [[[H1 H2] H3] Hb]. destruct (IH Hb) as (I1 & I2 & I3).
  rewrite H1, H2, H3, I1, I2, I3. auto.
Qed.

(** The section under the last heading [h] of a document joined from the
    lines [before], [h], [body], a blank line and [rest]. *)
Lemma section_of_join (h : str) (before body rest : list str) :
  one_line h = true ->
  forallb (section_line h) body = true ->
  forallb one_line rest = true ->
  forallb (fun l => negb (str_eqb l h)) ([] :: rest) = true ->
  section_of h (doc_lines (join [LF] (((before ++ [h]) ++ body) ++ [] :: rest)))
  = Some body.
Proof.
  intros Hh Hbody Hrest Hnot.
  destruct (section_line_parts _ _ Hbody) as (B1 & B2 & B3).
  unfold doc_lines. rewrite split_join_flat.
  2:{ destruct before; discriminate. }
  rewrite !flat_map_app.
  rewrite (one_line_flat body B1), (one_line_flat ([] :: rest)) by exact Hrest.
  simpl flat_map at 2. rewrite (one_line_split _ Hh), app_nil_r.
  rewrite <- !app_assoc. simpl app at 2.
  rewrite section_of_last.
  - now rewrite until_blank_app.
  - rewrite forallb_app. now rewrite B3, Hnot.
Qed.

(** *** render *)

Lemma item_provider (p : str) :
  valid_provider p ->
  exists url, PyDict.item PlanRollout.PROVIDER_LINKS p = Ok url.
Proof.
  intros [-> | [-> | [-> | [-> | ->]]]]; eexists; reflexivity.
Qed.

Lemma channel_lines_valid (c : str) :
  valid_channel c ->
  exists url,
    PyDict.get PlanRollout.CHANNEL_LINKS c = Some url
    /\ channel_lines c = [configure_line c url; smoke_line c]
    /\ forallb (section_line (lit "## 3. Channels")) (channel_lines c) = true.
Proof.
  intros [-> | [-> | ->]]; eexists; (split; [reflexivity|]);
    split; reflexivity.
Qed.

Lemma append_channel_valid (lines : list str) (c : str) :
  valid_channel c ->
  PlanRollout.append_channel lines c = Ok (lines ++ channel_lines c).
Proof.
  intros H. destruct (channel_lines_valid c H) as (url & E & -> & _).
  unfold PlanRollout.append_channel, PyDict.item. rewrite E. cbn [bind].
  now rewrite <- app_assoc.
Qed.

Lemma for_each_append (chans : list str) :
  Forall valid_channel chans ->
  forall lines,
    for_each PlanRollout.append_channel chans lines
    = Ok (lines ++ flat_map channel_lines chans).
Proof.
  induction 1 as [|c chans Hc _ IH]; intros lines; simpl.
  - now rewrite app_nil_r.
  - rewrite (append_channel_valid _ _ Hc). cbn [bind].
    now rewrite IH, <- app_assoc.
Qed.

Lemma channel_lines_section (chans : list str) :
  Forall valid_channel chans ->
  forallb (section_line (lit "## 3. Channels")) (flat_map channel_lines chans)
  = true.
Proof.
  induction 1 as [|c chans Hc _ IH]; cbn [flat_map]; [reflexivity|].
  destruct (channel_lines_valid c Hc) as (_ & _ & _ & H).
  now rewrite forallb_app, H, IH.
Qed.

Lemma channel_lines_nth (chans : list str) :
  Forall valid_channel chans ->
  List.length (flat_map channel_lines chans) = 2 * List.length chans
  /\ forall i c,
       nth_error chans i = Some c ->
       exists url,
         PyDict.get PlanRollout.CHANNEL_LINKS c = Some url
         /\ nth_error (flat_map channel_lines chans) (2 * i)
            = Some (configure_line c url)
         /\ nth_error (flat_map channel_lines chans) (2 * i + 1)
            = Some (smoke_line c).
Proof.
  induction 1 as [|c0 chans Hc _ [IHlen IHnth]].
  - split; [reflexivity|]. intros [|i] c; discriminate.
  - destruct (channel_lines_valid c0 Hc) as (url & E & El & _).
    cbn [flat_map]. rewrite El. split.
    + cbn [app List.length]. rewrite IHlen. lia.
    + intros [|i] c.
      * intros [= <-]. exists url. auto.
      * cbn [nth_error]. intros Hi.
        destruct (IHnth i c Hi) as (u & Eu & H1 & H2).
        exists u. split; [exact Eu|].
        replace (2 * S i) with (S (S (2 * i))) by lia.
        replace (S (S (2 * i)) + 1) with (S (S (2 * i + 1))) by lia.
        auto.
Qed.

Lemma one_line_app (a b : str) : one_line (a ++ b) = one_line a && one_line b.
Proof. unfold one_line. now rewrite existsb_app, negb_orb. Qed.

(** The document [render] returns: the opening lines, which end with the
    heading of the channels section, the channel lines or the line that says
    there are none, and the closing lines, which start with a blank line.
    When the timestamp and the environment label are single lines, so are
    the opening lines, and none above the heading reads like it. *)
Lemma render_layout now provider chans environment :
  valid_provider provider -> Forall valid_channel chans ->
  exists before,
    PlanRollout.render now provider chans environment
    = Ok (join [LF]
            (((before ++ [lit "## 3. Channels"])
              ++ (if truthy chans then flat_map channel_lines chans
                  else [no_channels_line]))
             ++ [] :: tl PlanRollout.closing_lines))
    /\ (one_line now = true -> one_line environment = true ->
        forallb (fun l => one_line l && negb (str_eqb l (lit "## 3. Channels")))
                before = true).
Proof.
  intros Hp Hc. destruct (item_provider _ Hp) as [url E].
  exists (removelast (PlanRollout.opening_lines now provider environment url)).
  split.
  - unfold PlanRollout.render. rewrite E. cbn [bind].
    destruct chans as [|c chans]; cbn [truthy].
    + reflexivity.
    + rewrite (for_each_append _ Hc). reflexivity.
  - intros Hn He.
    destruct Hp as [-> | [-> | [-> | [-> | ->]]]];
      vm_compute in E; injection E as <-;
      cbn [PlanRollout.opening_lines removelast forallb];
      rewrite !one_line_app, Hn, He; reflexivity.
Qed.

Lemma count_occ_none (h : str) (ls : list str) :
  forallb (fun l => negb (str_eqb l h)) ls = true ->
  count_occ str_eq_dec ls h = 0.
Proof.
  induction ls as [|l ls IH]; simpl; [reflexivity|].
  rewrite andb_true_iff, negb_true_iff, str_eqb_neq. intros [Hl Hls].
  destruct (str_eq_dec l h); [contradiction | now apply IH].
Qed.

(** A heading that only one of the joined lines reads occurs once among the
    lines of the document. *)
Lemma heading_once (h : str) (before body rest : list str) :
  one_line h = true ->
  forallb (fun l => one_line l && negb (str_eqb l h)) before = true ->
  forallb (section_line h) body = true ->
  forallb one_line rest = true ->
  forallb (fun l => negb (str_eqb l h)) ([] :: rest) = true ->
  count_occ str_eq_dec
    (doc_lines (join [LF] (((before ++ [h]) ++ body) ++ [] :: rest))) h = 1.
Proof.
  intros Hh Hbefore Hbody Hrest Hnot.
  destruct (section_line_parts _ _ Hbody) as (B1 & B2 & B3).
  assert (A : forallb one_line before = true
              /\ forallb (fun l => negb (str_eqb l h)) before = true).
  { clear -Hbefore. induction before as [|l before IH]; simpl in *; [auto|].
    rewrite !andb_true_iff in *. destruct Hbefore as [[H1 H2] H3].
    destruct (IH H3). auto. }
  destruct A as [A1 A2].
  unfold doc_lines. rewrite split_join_flat.
  2:{ destruct before; discriminate. }
  rewrite !flat_map_app.
  rewrite (one_line_flat before A1), (one_line_flat body B1),
    (one_line_flat ([] :: rest)) by exact Hrest.
  simpl flat_map. rewrite (one_line_split _ Hh), app_nil_r.
  rewrite !count_occ_app.
  rewrite (count_occ_none _ _ A2), (count_occ_none _ _ B3),
    (count_occ_none _ _ Hnot).
  simpl. destruct (str_eq_dec h h); [reflexivity | congruence].
Qed.

Lemma channel_key_iff (c : str) :
  In c (PyDict.keys PlanRollout.CHANNEL_LINKS) <-> valid_channel c.
Proof. rewrite <- has_keys. apply has_channel_iff. Qed.

Lemma channel_keys_valid (chans : list str) :
  Forall (fun c => In c (PyDict.keys PlanRollout.CHANNEL_LINKS)) chans
  <-> Forall valid_channel chans.
Proof.
  split; intros H; eapply Forall_impl; try exact H; intros c; apply channel_key_iff.
Qed.

Lemma parse_channels_cases (raw : str) :
  (exists chans,
      PlanRollout.parse_channels raw = Ok chans /\ Forall valid_channel chans)
  \/ (exists msg, PlanRollout.parse_channels raw = Raise (ValueError msg)).
Proof.
  rewrite parse_channels_eq. cbv zeta.
  destruct (filter (fun c => negb (valid_channelb c))
                   (identifiers (split "," raw))) as [|x off] eqn:E.
  - left. eexists. split; [reflexivity|]. now apply offending_nil_iff.
  - right. eexists. reflexivity.
Qed.

Lemma render_total now provider chans environment :
  valid_provider provider -> Forall valid_channel chans ->
  exists doc, PlanRollout.render now provider chans environment = Ok doc.
Proof.
  intros Hp Hc. destruct (render_layout now provider chans environment Hp Hc)
    as [before [E _]].
  eexists. exact E.
Qed.

Lemma main_channels_step (raw : str) :
  (if truthy raw then PlanRollout.parse_channels raw else Ok [])
  = PlanRollout.parse_channels raw.
Proof. destruct raw; reflexivity. Qed.

(** ** The claims on the rollout planner *)

(** C7.  For a valid provider and validated channels, the channels section
    of the rendered document is the single line saying that no channels were
    selected, with no configure line, when the channel list is empty;
    otherwise it has two lines per entry of the list, the configure line and
    then the smoke-test line of that entry, in the order of the list,
    repeated entries included.  When the timestamp and the environment label
    are single lines, the heading of the section occurs once in the
    document. *)
Theorem C7_channels_section now provider chans environment :
  valid_provider provider -> Forall valid_channel chans ->
  exists doc sec,
    PlanRollout.render now provider chans environment = Ok doc
    /\ channels_section doc = Some sec
    /\ (chans = [] ->
        List.length sec = 1
        /\ count_occ str_eq_dec sec no_channels_line = 1
        /\ filter (fun l => startswith l (lit "- [ ] Configure")) sec = [])
    /\ (chans <> [] ->
        List.length sec = 2 * List.length chans
        /\ forall i c,
             nth_error chans i = Some c ->
             exists url,
               PyDict.get PlanRollout.CHANNEL_LINKS c = Some url
               /\ nth_error sec (2 * i) = Some (configure_line c url)
               /\ nth_error sec (2 * i + 1) = Some (smoke_line c))
    /\ (one_line now = true -> one_line environment = true ->
        count_occ str_eq_dec (doc_lines doc) (lit "## 3. Channels") = 1).
Proof.
  intros Hp Hc.
  destruct (render_layout now provider chans environment Hp Hc)
    as [before [E Hone]].
  eexists.
  exists (if truthy chans then flat_map channel_lines chans
          else [no_channels_line]).
  assert (Hbody : forallb (section_line (lit "## 3. Channels"))
                    (if truthy chans then flat_map channel_lines chans
                     else [no_channels_line]) = true).
  { destruct chans; [reflexivity|]. now apply channel_lines_section. }
  split; [exact E|]. split; [|split; [|split]].
  4:{ intros Hn He. apply heading_once; try reflexivity; auto. }
  - unfold channels_section. apply section_of_join; try reflexivity.
    exact Hbody.
  - intros ->. cbn [truthy]. split; [reflexivity|]. split; [|reflexivity].
    cbn [count_occ].
      destruct (str_eq_dec no_channels_line no_channels_line);
        [reflexivity | congruence].
  - intros Hne. destruct chans as [|c chans]; [contradiction|].
    cbn [truthy]. now apply channel_lines_nth.
Qed.

Lemma C7_channels_section_witness :
  exists doc sec,
    PlanRollout.render (lit "2026-01-01T00:00:00+00:00") (lit "fly")
                       [lit "slack"; lit "telegram"; lit "slack"] (lit "prod")
    = Ok doc
    /\ channels_section doc = Some sec
    /\ List.length sec = 6.
Proof.
  destruct (C7_channels_section
              (lit "2026-01-01T00:00:00+00:00") (lit "fly")
              [lit "slack"; lit "telegram"; lit "slack"] (lit "prod"))
    as (doc & sec & Hr & Hs & _ & Hn & _).
  - left. reflexivity.
  - constructor; [right; right; reflexivity|].
    constructor; [left; reflexivity|].
    constructor; [right; right; reflexivity | constructor].
  - exists doc, sec. split; [exact Hr|]. split; [exact Hs|].
    apply Hn. discriminate.
Defined.

(** C10.  For a provider among the keys of [PROVIDER_LINKS] and channels
    among the keys of [CHANNEL_LINKS], [render] returns a document: neither
    dictionary lookup fails.  [main] only calls [render] that way: the
    channels that [parse_channels] returns are keys of [CHANNEL_LINKS], and a
    provider outside the choices ends the run with status 2 before anything
    else.  So [render] returns in every run that reaches it, and an
    exception that ends a run of [main] is one raised by [mkdir] or
    [write_text], never the [KeyError] of a lookup. *)
Theorem C10_render_total :
  (forall now provider chans environment,
     In provider (PyDict.keys PlanRollout.PROVIDER_LINKS) ->
     Forall (fun c => In c (PyDict.keys PlanRollout.CHANNEL_LINKS)) chans ->
     exists doc, PlanRollout.render now provider chans environment = Ok doc)
  /\ (forall raw chans,
        PlanRollout.parse_channels raw = Ok chans ->
        Forall (fun c => In c (PyDict.keys PlanRollout.CHANNEL_LINKS)) chans)
  /\ (forall fs now args,
        (~ In (PlanRollout.provider args)
              (PyDict.keys PlanRollout.PROVIDER_LINKS)
         /\ PlanRollout.main fs now args
            = Ok {| PlanRollout.stdout := [];
                    PlanRollout.written := None;
                    PlanRollout.status := 2%Z |})
        \/ (exists msg,
              PlanRollout.parse_channels (PlanRollout.channels args)
              = Raise (ValueError msg)
              /\ PlanRollout.main fs now args
                 = Ok {| PlanRollout.stdout := [lit "[ERROR] " ++ msg];
                         PlanRollout.written := None;
                         PlanRollout.status := 1%Z |})
        \/ (exists chans doc,
              In (PlanRollout.provider args)
                 (PyDict.keys PlanRollout.PROVIDER_LINKS)
              /\ Forall (fun c => In c (PyDict.keys PlanRollout.CHANNEL_LINKS))
                        chans
              /\ PlanRollout.render now (PlanRollout.provider args) chans
                   (PlanRollout.environment args) = Ok doc
              /\ (PlanRollout.main fs now args
                  = Ok {| PlanRollout.stdout :=
                            [lit "[OK] Wrote rollout plan: "
                             ++ PyPath.str_of
                                  (PyPath.Path (PlanRollout.output args))];
                          PlanRollout.written :=
                            Some (PyPath.str_of
                                    (PyPath.Path (PlanRollout.output args)),
                                  doc);
                          PlanRollout.status := 0%Z |}
                  \/ exists e,
                       PlanRollout.main fs now args = Raise e
                       /\ (PlanRollout.mkdir fs
                             (PyPath.str_of
                                (PyPath.parent
                                   (PyPath.Path (PlanRollout.output args))))
                           = Raise e
                           \/ PlanRollout.write_text fs
                                (PyPath.str_of
                                   (PyPath.Path (PlanRollout.output args)))
                                doc
                              = Raise e)))).
Proof.
  split; [|split].
  - intros now provider chans environment Hp Hc.
    apply render_total; [now apply has_provider_iff | now apply channel_keys_valid].
  - intros raw chans H.
    destruct (parse_channels_cases raw) as [(c & E & Hc)|(msg & E)];
      rewrite E in H; [|discriminate].
    injection H as <-. now apply channel_keys_valid.
  - intros fs now [provider channels environment output].
    unfold PlanRollout.main.
    cbn [PlanRollout.provider PlanRollout.channels PlanRollout.environment
         PlanRollout.output].
    destruct (mem provider (sorted (PyDict.keys PlanRollout.PROVIDER_LINKS)))
      eqn:M; cbn [negb].
    2:{ left. split; [|reflexivity].
        intros Hin. apply (proj2 (sorted_In provider _)) in Hin.
        apply mem_In in Hin. congruence. }
    apply mem_In in M. apply (proj1 (sorted_In _ _)) in M.
    rewrite main_channels_step.
    destruct (parse_channels_cases channels) as [(c & E & Hc)|(msg & E)];
      rewrite E.
    2:{ right; left. exists msg. split; reflexivity. }
    right; right.
    destruct (render_total now provider c environment) as [doc Hd];
      [now apply has_provider_iff | exact Hc |].
    exists c, doc. split; [exact M|].
    split; [now apply channel_keys_valid|]. split; [exact Hd|].
    rewrite Hd. cbn [bind].
    destruct (PlanRollout.mkdir fs
                (PyPath.str_of (PyPath.parent (PyPath.Path output))))
      as [[]|e] eqn:Em; cbn [bind].
    2:{ right. exists e. auto. }
    destruct (PlanRollout.write_text fs (PyPath.str_of (PyPath.Path output)) doc)
      as [[]|e] eqn:Ew; cbn [bind].
    + left. reflexivity.
    + right. exists e. auto.
Qed.

Lemma C10_render_total_witness :
  exists doc,
    PlanRollout.render (lit "2026-01-01T00:00:00+00:00") (lit "gcp")
                       [lit "discord"] (lit "staging")
    = Ok doc.
Proof.
  apply (proj1 C10_render_total).
  - simpl. intuition.
  - constructor; [simpl; intuition | constructor].
Defined.

(** ** Further properties of the env validator *)

Lemma skipped_line_iff (l : str) :
  skipped_line l = true <-> blank l \/ comment l.
Proof.
  unfold skipped_line, blank, comment.
  rewrite orb_true_iff, negb_true_iff, truthy_false, startswith_prefix.
  reflexivity.
Qed.

Lemma occurs_nonempty (k : str) (lines vs : list str) :
  occurs k lines vs ->
  (vs <> [] <-> exists l v, In l lines /\ assigns l k v).
Proof.
  induction 1 as [|l ls x vs Ha _ IH|l ls vs Hn _ IH].
  - split; [congruence | intros (l & v & [] & _)].
  - split; [|discriminate]. intros _. exists l, x. split; [now left | exact Ha].
  - rewrite IH. split.
    + intros (l' & v & Hin & Ha). exists l', v. split; [now right | exact Ha].
    + intros (l' & v & [<-|Hin] & Ha); [now apply Hn in Ha|].
      now exists l', v.
Qed.

Lemma length_setitem (d : PyDict.dict) (k v : str) :
  List.length (PyDict.setitem d k v)
  = if PyDict.has d k then List.length d else S (List.length d).
Proof.
  rewrite <- (length_map fst (PyDict.setitem d k v)).
  change (map fst (PyDict.setitem d k v))
    with (PyDict.keys (PyDict.setitem d k v)).
  rewrite keys_setitem. unfold PyDict.keys.
  destruct (PyDict.has d k);
    rewrite ?length_app, length_map; simpl; lia.
Qed.

(** Every line is counted once: passed over, malformed, a new key or a
    duplicate. *)
Lemma parse_loop_count lines : forall start v d m v' d' m',
  for_each ValidateEnv.parse_line (enumerate start lines) (v, d, m)
  = Ok (v', d', m') ->
  List.length (filter skipped_line lines)
  + List.length m' + List.length v' + List.length d'
  = List.length lines + List.length m + List.length v + List.length d.
Proof.
  induction lines as [|l lines IH]; intros start v d m v' d' m'; simpl.
  - intros [= <- <- <-]. lia.
  - destruct (parse_line_cases v d m start l)
      as [[Hs E]|[[Hm E]|(k & x & Ha & E)]]; rewrite E; simpl; intros H;
      apply IH in H.
    + apply skipped_line_iff in Hs. rewrite Hs. simpl. lia.
    + assert (Hk : skipped_line l = false).
      { destruct (skipped_line l) eqn:S; [|reflexivity].
        apply skipped_line_iff in S. destruct Hm as (Hb & Hc & _). tauto. }
      rewrite Hk. rewrite length_app in H. simpl in H. lia.
    + assert (Hk : skipped_line l = false).
      { destruct (skipped_line l) eqn:S; [|reflexivity].
        apply skipped_line_iff in S. apply assigns_shape in Ha. tauto. }
      rewrite Hk. rewrite length_setitem in H.
      destruct (PyDict.has v k); rewrite ?length_app in H; simpl in H; lia.
Qed.

(** X1.  The only exception that ends a run of the validator is one that
    the file system raises when the env file is looked up or read:
    [parse_env] returns for every text (the unpacking of
    [line.split("=", 1)] always gets two parts), and a run on a readable
    file returns status 0 or 1.  When the env file does not exist the run
    prints the one error line, which names the path as [str(Path(...))]
    gives it, and returns 1. *)
Theorem X1_validator_exceptions fs args :
  (forall text, exists st, ValidateEnv.parse_env text = Ok st)
  /\ (fs (PyPath.str_of (PyPath.Path (ValidateEnv.env_file args)))
      = ValidateEnv.Missing ->
      ValidateEnv.main fs args
      = Ok {| ValidateEnv.stdout :=
                [lit "[ERROR] Env file not found: "
                 ++ PyPath.str_of (PyPath.Path (ValidateEnv.env_file args))];
              ValidateEnv.status := 1%Z |})
  /\ (forall e,
        fs (PyPath.str_of (PyPath.Path (ValidateEnv.env_file args)))
        = ValidateEnv.Unreadable e ->
        ValidateEnv.main fs args = Raise e)
  /\ (forall text,
        fs (PyPath.str_of (PyPath.Path (ValidateEnv.env_file args)))
        = ValidateEnv.Readable text ->
        exists run,
          ValidateEnv.main fs args = Ok run
          /\ (ValidateEnv.status run = 0%Z \/ ValidateEnv.status run = 1%Z)).
Proof.
  split; [|split; [|split]].
  - intros text. destruct (parse_env_total text) as (v & d & m & H).
    now exists (v, d, m).
  - intros R. unfold ValidateEnv.main. now rewrite R.
  - intros e R. unfold ValidateEnv.main. now rewrite R.
  - intros text R.
    destruct (parse_env_total text) as (values & dups & mal & Hp).
    eexists. split; [exact (main_report _ _ _ _ _ _ R Hp)|].
    cbv zeta. cbn [ValidateEnv.status].
    match goal with |- context [if ?b then _ else _] => destruct b end; auto.
Qed.

Lemma X1_validator_exceptions_witness :
  ValidateEnv.main (fun _ => ValidateEnv.Missing)
                   {| ValidateEnv.env_file := lit "./conf//prod.env";
                      ValidateEnv.require := [lit "TOKEN"] |}
  = Ok {| ValidateEnv.stdout :=
            [lit "[ERROR] Env file not found: conf/prod.env"];
          ValidateEnv.status := 1%Z |}
  /\ ValidateEnv.main
       (fun _ => ValidateEnv.Unreadable (OSError (lit "Is a directory")))
       {| ValidateEnv.env_file := lit "";
          ValidateEnv.require := [] |}
     = Raise (OSError (lit "Is a directory")).
Proof.
  split.
  - apply (proj1 (proj2 (X1_validator_exceptions
                           (fun _ => ValidateEnv.Missing)
                           {| ValidateEnv.env_file := lit "./conf//prod.env";
                              ValidateEnv.require := [lit "TOKEN"] |}))).
    reflexivity.
  - apply (proj1 (proj2 (proj2 (X1_validator_exceptions
                           (fun _ => ValidateEnv.Unreadable
                                       (OSError (lit "Is a directory")))
                           {| ValidateEnv.env_file := lit "";
                              ValidateEnv.require := [] |})))).
    reflexivity.
Defined.

(** X2.  The keys of the returned mapping are pairwise distinct, and a key is
    in the mapping exactly when some line of the file is a well-formed line
    for it. *)
Theorem X2_mapping_keys text :
  exists values dups mal,
    ValidateEnv.parse_env text = Ok (values, dups, mal)
    /\ NoDup (PyDict.keys values)
    /\ forall k,
         In k (PyDict.keys values)
         <-> exists l v, In l (splitlines text) /\ assigns l k v.
Proof.
  destruct (parse_env_total text) as (values & dups & mal & Hp).
  exists values, dups, mal. split; [exact Hp|]. split.
  - apply (parse_loop_keys_NoDup _ ([], [], []) _ (NoDup_nil _) Hp).
  - intros k. destruct (occurs_exists k (splitlines text)) as [vs Hocc].
    destruct (parse_env_occurs _ _ _ _ _ _ Hp Hocc) as [Hv _].
    rewrite <- (occurs_nonempty _ _ _ Hocc), <- has_keys, has_get.
    destruct vs as [|x vs].
    + simpl in Hv. rewrite Hv.
      split; [intros [v H]; discriminate | congruence].
    + rewrite (last_map_Some_nonempty (x :: vs) None x) in Hv by discriminate.
      rewrite Hv. split; [discriminate | eauto].
Qed.

(** X3.  Every line of the file is accounted for once: the lines passed over
    as blank or comment, the malformed records, the keys of the mapping and
    the entries of the duplicates list add up to the number of lines. *)
Theorem X3_every_line_counted text :
  exists values dups mal,
    ValidateEnv.parse_env text = Ok (values, dups, mal)
    /\ List.length (filter skipped_line (splitlines text))
       + List.length mal + List.length values + List.length dups
       = List.length (splitlines text).
Proof.
  destruct (parse_env_total text) as (values & dups & mal & Hp).
  exists values, dups, mal. split; [exact Hp|].
  unfold ValidateEnv.parse_env in Hp. apply parse_loop_count in Hp.
  simpl in Hp. lia.
Qed.

(** X4.  A key is in the duplicates list exactly when the file has two or
    more well-formed lines for it. *)
Theorem X4_duplicate_iff text k vs :
  occurs k (splitlines text) vs ->
  exists values dups mal,
    ValidateEnv.parse_env text = Ok (values, dups, mal)
    /\ (In k dups <-> 2 <= List.length vs).
Proof.
  intros Hocc.
  destruct (parse_env_total text) as (values & dups & mal & Hp).
  exists values, dups, mal. split; [exact Hp|].
  destruct (parse_env_occurs _ _ _ _ _ _ Hp Hocc) as [_ Hd].
  rewrite (count_occ_In str_eq_dec). lia.
Qed.

Lemma X4_duplicate_iff_witness :
  exists values dups mal,
    ValidateEnv.parse_env (lit "A=1" ++ [LF] ++ lit "B=2" ++ [LF] ++ lit "A=3")
    = Ok (values, dups, mal)
    /\ In (lit "A") dups.
Proof.
  destruct (X4_duplicate_iff
              (lit "A=1" ++ [LF] ++ lit "B=2" ++ [LF] ++ lit "A=3")
              (lit "A") [lit "1"; lit "3"])
    as (values & dups & mal & Hp & H).
  - change (splitlines (lit "A=1" ++ [LF] ++ lit "B=2" ++ [LF] ++ lit "A=3"))
      with [lit "A=1"; lit "B=2"; lit "A=3"].
    constructor; [now apply assigns_parse_line|].
    apply occurs_skip.
    { intros v Ha. apply assigns_parse_line in Ha. discriminate Ha. }
    constructor; [now apply assigns_parse_line | constructor].
  - exists values, dups, mal. split; [exact Hp|]. apply H. simpl. lia.
Defined.

Lemma get_In (d : PyDict.dict) (k v : str) :
  PyDict.get d k = Some v -> In (k, v) d.
Proof.
  induction d as [|[k0 v0] d IH]; simpl; [discriminate|].
  destruct (str_eqb k0 k) eqn:E.
  - apply str_eqb_eq in E. intros [= ->]. left. now subst.
  - intros H. right. now apply IH.
Qed.

Lemma line_kinds (l : str) :
  (blank l \/ comment l) \/ malformed_line l \/ exists k v, assigns l k v.
Proof.
  destruct (parse_line_cases [] [] [] 0 l)
    as [[Hs _]|[[Hm _]|(k & v & Ha & _)]]; eauto.
Qed.

Lemma parse_line_skipped st idx (l : str) :
  blank l \/ comment l -> ValidateEnv.parse_line st (idx, l) = Ok st.
Proof.
  intros Hs. destruct st as [[v d] m].
  destruct (parse_line_cases v d m idx l)
    as [[_ E]|[[Hm _]|(k & x & Ha & _)]]; [exact E | |].
  - destruct Hm as (Hb & Hc & _). tauto.
  - apply assigns_shape in Ha. tauto.
Qed.

Lemma parse_line_malformed values dups mal idx (l : str) :
  malformed_line l ->
  ValidateEnv.parse_line (values, dups, mal) (idx, l)
  = Ok (values, dups, mal ++ [(idx, l)]).
Proof.
  intros Hm.
  destruct (parse_line_cases values dups mal idx l)
    as [[Hs _]|[[_ E]|(k & x & Ha & _)]]; [| exact E |].
  - destruct Hm as (Hb & Hc & _). tauto.
  - exfalso. now apply (assigns_not_malformed _ _ _ Ha).
Qed.

Lemma is_placeholder_infix (v : str) :
  ValidateEnv.is_placeholder v = true
  <-> exists p, In p ValidateEnv.PLACEHOLDER_PATTERNS /\ infix p (lower v).
Proof.
  unfold ValidateEnv.is_placeholder. rewrite existsb_exists.
  split; intros (p & Hp & Hi); exists p; (split; [exact Hp|]);
    now apply contains_infix.
Qed.

Lemma lower_char_idem (c : ascii) : lower_char (lower_char c) = lower_char c.
Proof.
  destruct c as [[] [] [] [] [] [] [] []]; reflexivity.
Qed.

Lemma lower_idem (s : str) : lower (lower s) = lower s.
Proof.
  unfold lower. rewrite map_map. apply map_ext. apply lower_char_idem.
Qed.

(** What a clean report says about the parsed file. *)
Lemma main_clean fs args text values dups mal run :
  fs (PyPath.str_of (PyPath.Path (ValidateEnv.env_file args)))
  = ValidateEnv.Readable text ->
  ValidateEnv.parse_env text = Ok (values, dups, mal) ->
  ValidateEnv.main fs args = Ok run ->
  ValidateEnv.status run = 0%Z ->
  mal = [] /\ dups = []
  /\ ValidateEnv.missing_keys values (ValidateEnv.require args) = []
  /\ ValidateEnv.placeholder_keys values = [].
Proof.
  intros Hread Hp Hm Hs.
  rewrite (main_report _ _ _ _ _ _ Hread Hp) in Hm.
  cbv zeta in Hm. injection Hm as <-. cbn [ValidateEnv.status] in Hs.
  match type of Hs with
  | (if negb ?b then _ else _) = _ => destruct b eqn:E; [discriminate Hs|]
  end.
  rewrite !orb_false_iff, !truthy_false in E. tauto.
Qed.

(** X5.  A run that returns status 0 vouches for the file: every line is
    blank, a comment or a well-formed assignment, no key is assigned twice,
    every required key has a non-empty value, and no stored value is a
    non-empty placeholder. *)
Theorem X5_passing_run fs args text run :
  fs (PyPath.str_of (PyPath.Path (ValidateEnv.env_file args)))
  = ValidateEnv.Readable text ->
  ValidateEnv.main fs args = Ok run ->
  ValidateEnv.status run = 0%Z ->
  exists values,
    ValidateEnv.parse_env text = Ok (values, [], [])
    /\ (forall l, In l (splitlines text) ->
                  blank l \/ comment l \/ exists k v, assigns l k v)
    /\ (forall k vs, occurs k (splitlines text) vs -> List.length vs <= 1)
    /\ (forall k, In k (ValidateEnv.require args) ->
                  exists v, PyDict.get values k = Some v /\ v <> [])
    /\ (forall k v, PyDict.get values k = Some v ->
                    v = [] \/ ValidateEnv.is_placeholder v = false).
Proof.
  intros Hread Hm Hs.
  destruct (parse_env_total text) as (values & dups & mal & Hp).
  destruct (main_clean _ _ _ _ _ _ _ Hread Hp Hm Hs) as (-> & -> & Hmi & Hph).
  exists values. split; [exact Hp|]. split; [|split; [|split]].
  - intros l Hin. destruct (line_kinds l) as [H|[H|H]]; [tauto | | tauto].
    exfalso. apply In_nth_error in Hin as [i Hi].
    destruct (parse_env_malformed _ _ _ _ Hp) as [_ Hx].
    apply (proj2 (Hx (S i) l)). split; [lia|]. simpl. rewrite Nat.sub_0_r. auto.
  - intros k vs Hocc.
    destruct (parse_env_occurs _ _ _ _ _ _ Hp Hocc) as [_ Hd].
    simpl in Hd. lia.
  - intros k Hk.
    destruct (PyDict.get values k) as [v|] eqn:G.
    + exists v. split; [reflexivity|]. intros ->.
      assert (H : In k (ValidateEnv.missing_keys values (ValidateEnv.require args)))
        by (apply missing_keys_In; auto).
      rewrite Hmi in H. contradiction.
    + assert (H : In k (ValidateEnv.missing_keys values (ValidateEnv.require args)))
        by (apply missing_keys_In; auto).
      rewrite Hmi in H. contradiction.
  - intros k v G. destruct v as [|c v]; [now left|]. right.
    destruct (ValidateEnv.is_placeholder (c :: v)) eqn:P; [|reflexivity].
    assert (H : In k (ValidateEnv.placeholder_keys values)).
    { apply placeholder_keys_In. exists (c :: v).
      split; [now apply get_In|]. split; [discriminate | exact P]. }
    rewrite Hph in H. contradiction.
Qed.

Lemma X5_passing_run_witness :
  exists values,
    ValidateEnv.parse_env (lit "# prod" ++ [LF] ++ lit "TOKEN = abc123")
    = Ok (values, [], [])
    /\ exists v, PyDict.get values (lit "TOKEN") = Some v /\ v <> [].
Proof.
  destruct (X5_passing_run
              (fun _ => ValidateEnv.Readable (lit "# prod" ++ [LF] ++ lit "TOKEN = abc123"))
              {| ValidateEnv.env_file := lit ".env";
                 ValidateEnv.require := [lit "TOKEN"] |}
              (lit "# prod" ++ [LF] ++ lit "TOKEN = abc123")
              {| ValidateEnv.stdout :=
                   [lit "Parsed keys: 1"; LF :: lit "[OK] Env validation passed."];
                 ValidateEnv.status := 0%Z |}
              eq_refl eq_refl eq_refl)
    as (values & Hp & _ & _ & Hreq & _).
  exists values. split; [exact Hp|]. apply Hreq. now left.
Defined.

(** X6.  No key is reported both as missing and as a placeholder. *)
Theorem X6_missing_not_placeholder text required :
  exists values dups mal,
    ValidateEnv.parse_env text = Ok (values, dups, mal)
    /\ forall k,
         In k (ValidateEnv.missing_keys values required) ->
         ~ In k (ValidateEnv.placeholder_keys values).
Proof.
  destruct (parse_env_total text) as (values & dups & mal & Hp).
  exists values, dups, mal. split; [exact Hp|].
  intros k Hm Hph.
  apply missing_keys_In in Hm as [_ Hm].
  apply placeholder_keys_In in Hph as (v & Hin & Hne & _).
  apply In_get in Hin;
    [|apply (parse_loop_keys_NoDup _ ([], [], []) _ (NoDup_nil _) Hp)].
  rewrite Hin in Hm. destruct Hm as [Hm|Hm]; [discriminate|].
  injection Hm as ->. now apply Hne.
Qed.

(** X7.  The detector looks at the value without regard to letter case, and a
    flagged value stays flagged when text is put before or after it. *)
Theorem X7_placeholder_embedding (v a b : str) :
  ValidateEnv.is_placeholder (lower v) = ValidateEnv.is_placeholder v
  /\ (ValidateEnv.is_placeholder v = true ->
      ValidateEnv.is_placeholder (a ++ v ++ b) = true).
Proof.
  split.
  - unfold ValidateEnv.is_placeholder. now rewrite lower_idem.
  - intros H. apply is_placeholder_infix in H as (p & Hp & x & y & E).
    apply is_placeholder_infix. exists p. split; [exact Hp|].
    unfold lower in *. rewrite !map_app, E.
    exists (map lower_char a ++ x), (y ++ map lower_char b).
    now rewrite <- !app_assoc.
Qed.

Lemma X7_placeholder_embedding_witness :
  ValidateEnv.is_placeholder (lit "sk-" ++ lit "Your_Token" ++ lit "-123") = true.
Proof.
  apply (X7_placeholder_embedding (lit "Your_Token") (lit "sk-") (lit "-123")).
  reflexivity.
Defined.

(** *** Lines that are passed over, and the final line break *)

Lemma skipped_line_false (l : str) :
  malformed_line l \/ (exists k v, assigns l k v) -> skipped_line l = false.
Proof.
  intros H. destruct (skipped_line l) eqn:S; [|reflexivity].
  apply skipped_line_iff in S. destruct H as [(Hb & Hc & _)|(k & v & Ha)].
  - tauto.
  - apply assigns_shape in Ha. tauto.
Qed.

(** The loop over the lines that are not passed over gives the same mapping
    and duplicates, and the same malformed texts under other numbers. *)
Lemma parse_loop_erase lines : forall s v d m v' d' m',
  for_each ValidateEnv.parse_line (enumerate s lines) (v, d, m)
  = Ok (v', d', m') ->
  forall s2 m2,
  exists m2' texts,
    for_each ValidateEnv.parse_line
      (enumerate s2 (filter (fun l => negb (skipped_line l)) lines)) (v, d, m2)
    = Ok (v', d', m2')
    /\ map snd m' = map snd m ++ texts
    /\ map snd m2' = map snd m2 ++ texts.
Proof.
  induction lines as [|l lines IH]; intros s v d m v' d' m'; simpl.
  - intros [= <- <- <-] s2 m2. exists m2, []. now rewrite !app_nil_r.
  - destruct (line_kinds l) as [Hs|[Hm|(k & x & Ha)]].
    + rewrite (parse_line_skipped _ _ _ Hs). simpl.
      apply skipped_line_iff in Hs. rewrite Hs. simpl. apply IH.
    + rewrite (parse_line_malformed _ _ _ _ _ Hm). simpl.
      rewrite (skipped_line_false l) by auto. simpl.
      intros H s2 m2. rewrite (parse_line_malformed _ _ _ _ _ Hm). simpl.
      destruct (IH _ _ _ _ _ _ _ H (S s2) (m2 ++ [(s2, l)]))
        as (m2' & texts & E & H1 & H2).
      exists m2', (l :: texts). split; [exact E|].
      rewrite H1, H2, !map_app, <- !app_assoc. auto.
    + rewrite (parse_line_assigns _ _ _ _ _ _ _ Ha). simpl.
      rewrite (skipped_line_false l) by eauto. simpl.
      intros H s2 m2. rewrite (parse_line_assigns _ _ _ _ _ _ _ Ha). simpl.
      apply (IH _ _ _ _ _ _ _ H).
Qed.

Lemma splitlines_cons c (r : str) :
  splitlines (c :: r)
  = if is_linebreak c then
      [] :: match r with
            | d :: r' => if Ascii.eqb c CR && Ascii.eqb d LF
                         then splitlines r' else splitlines r
            | [] => []
            end
    else match splitlines r with
         | [] => [[c]]
         | w :: ws => (c :: w) :: ws
         end.
Proof. reflexivity. Qed.

(** A line feed put at the end of a text adds no line, or one empty line. *)
Lemma splitlines_final_LF n : forall s : str,
  List.length s <= n ->
  splitlines (s ++ [LF]) = splitlines s
  \/ splitlines (s ++ [LF]) = splitlines s ++ [[]].
Proof.
  induction n as [|n IH]; intros s Hlen.
  - destruct s; [right; reflexivity | simpl in Hlen; lia].
  - destruct s as [|c r]; [right; reflexivity|]. simpl in Hlen.
    change ((c :: r) ++ [LF]) with (c :: (r ++ [LF])).
    rewrite (splitlines_cons c (r ++ [LF])), (splitlines_cons c r).
    destruct (is_linebreak c).
    + destruct r as [|d r'].
      * simpl app. destruct (Ascii.eqb c CR); [left | right]; reflexivity.
      * simpl app. cbv beta iota. simpl in Hlen.
        destruct (Ascii.eqb c CR && Ascii.eqb d LF).
        -- destruct (IH r') as [E|E]; [lia | |]; rewrite E;
             [left | right]; reflexivity.
        -- change (d :: r' ++ [LF]) with ((d :: r') ++ [LF]).
           destruct (IH (d :: r')) as [E|E]; [simpl; lia | |]; rewrite E;
             [left | right]; reflexivity.
    + destruct (IH r) as [E|E]; [lia | |]; rewrite E; [now left|].
      destruct (splitlines r) as [|w ws]; [left | right]; reflexivity.
Qed.

Lemma enumerate_app {A : Type} (a b : list A) : forall s,
  enumerate s (a ++ b) = enumerate s a ++ enumerate (s + List.length a) b.
Proof.
  induction a as [|x a IH]; intros s; simpl.
  - now rewrite Nat.add_0_r.
  - rewrite IH. now rewrite Nat.add_succ_r.
Qed.

Lemma for_each_app {S X : Type} (body : S -> X -> result S) (a b : list X) :
  forall st,
    for_each body (a ++ b) st
    = (st' <- for_each body a st ;; for_each body b st').
Proof.
  induction a as [|x a IH]; intros st; simpl; [reflexivity|].
  destruct (body st x); simpl; [apply IH | reflexivity].
Qed.

(** X8.  Blank lines and comment lines can be added or removed anywhere in
    the file: two files with the same other lines, in the same order, give
    the same mapping, the same duplicates and the same malformed texts (only
    the line numbers of the malformed records differ). *)
Theorem X8_comments_do_not_matter text1 text2 :
  filter (fun l => negb (skipped_line l)) (splitlines text1)
  = filter (fun l => negb (skipped_line l)) (splitlines text2) ->
  exists values dups mal1 mal2,
    ValidateEnv.parse_env text1 = Ok (values, dups, mal1)
    /\ ValidateEnv.parse_env text2 = Ok (values, dups, mal2)
    /\ map snd mal1 = map snd mal2.
Proof.
  intros Hsame.
  destruct (parse_env_total text1) as (v1 & d1 & m1 & H1).
  destruct (parse_env_total text2) as (v2 & d2 & m2 & H2).
  destruct (parse_loop_erase _ _ _ _ _ _ _ _ H1 1 [])
    as (m1' & t1 & E1 & A1 & B1).
  destruct (parse_loop_erase _ _ _ _ _ _ _ _ H2 1 [])
    as (m2' & t2 & E2 & A2 & B2).
  rewrite Hsame, E2 in E1. injection E1 as <- <- <-.
  exists v2, d2, m1, m2. split; [exact H1|]. split; [exact H2|].
  simpl in *. congruence.
Qed.

Lemma X8_comments_do_not_matter_witness :
  exists values dups mal1 mal2,
    ValidateEnv.parse_env
      (lit "# keys" ++ [LF] ++ lit "A=1" ++ [LF; LF] ++ lit "oops" ++ [LF]
       ++ lit "  # more" ++ [LF] ++ lit "A=2")
    = Ok (values, dups, mal1)
    /\ ValidateEnv.parse_env
         (lit "A=1" ++ [LF] ++ lit "oops" ++ [LF] ++ lit "A=2")
       = Ok (values, dups, mal2)
    /\ map snd mal1 = map snd mal2.
Proof.
  apply X8_comments_do_not_matter. reflexivity.
Defined.

(** X9.  A line feed at the end of the file changes nothing: the text with
    one more final line feed parses to the same result. *)
Theorem X9_final_newline text :
  ValidateEnv.parse_env (text ++ [LF]) = ValidateEnv.parse_env text.
Proof.
  unfold ValidateEnv.parse_env.
  destruct (splitlines_final_LF (List.length text) text (le_n _)) as [E|E];
    rewrite E; [reflexivity|].
  rewrite enumerate_app, for_each_app.
  destruct (for_each ValidateEnv.parse_line (enumerate 1 (splitlines text))
                     ([], [], [])) as [st|e]; [|reflexivity].
  simpl. rewrite parse_line_skipped by (left; reflexivity). reflexivity.
Qed.

(** ** Further properties of the rollout planner *)

Lemma get_none_keys (d : PyDict.dict) (k : str) :
  ~ In k (PyDict.keys d) -> PyDict.get d k = None.
Proof.
  intros H. destruct (PyDict.get d k) as [v|] eqn:G; [|reflexivity].
  exfalso. apply H, has_keys, has_get. now exists v.
Qed.

Lemma valid_channel_dec (c : str) : {valid_channel c} + {~ valid_channel c}.
Proof.
  destruct (valid_channelb c) eqn:E.
  - left. now apply valid_channelb_iff.
  - right. intros H. apply valid_channelb_iff in H. congruence.
Defined.

Lemma first_invalid (chans : list str) :
  ~ Forall valid_channel chans ->
  exists good bad rest,
    chans = good ++ bad :: rest
    /\ Forall valid_channel good /\ ~ valid_channel bad.
Proof.
  induction chans as [|c chans IH]; intros H.
  - destruct H. constructor.
  - destruct (valid_channel_dec c) as [Hc|Hc].
    + destruct IH as (good & bad & rest & -> & Hg & Hb).
      { intros Hall. apply H. now constructor. }
      exists (c :: good), bad, rest. split; [reflexivity|].
      split; [now constructor | exact Hb].
    + exists [], c, chans. split; [reflexivity|].
      split; [constructor | exact Hc].
Qed.

Lemma render_bad_provider now provider chans environment :
  ~ valid_provider provider ->
  PlanRollout.render now provider chans environment
  = Raise (KeyError provider).
Proof.
  intros H. unfold PlanRollout.render, PyDict.item.
  rewrite get_none_keys; [reflexivity|].
  intros Hin. now apply has_provider_iff in Hin.
Qed.

Lemma render_bad_channel now provider good bad rest environment :
  valid_provider provider -> Forall valid_channel good -> ~ valid_channel bad ->
  PlanRollout.render now provider (good ++ bad :: rest) environment
  = Raise (KeyError bad).
Proof.
  intros Hp Hg Hb. destruct (item_provider _ Hp) as [url E].
  unfold PlanRollout.render. rewrite E. cbn [bind].
  assert (T : truthy (good ++ bad :: rest) = true) by now destruct good.
  rewrite T, for_each_app, (for_each_append _ Hg). cbn [bind for_each].
  unfold PlanRollout.append_channel, PyDict.item.
  rewrite get_none_keys; [reflexivity|].
  intros Hin. now apply channel_key_iff in Hin.
Qed.

(** X10.  [render] returns a document only for a provider of the provider
    table and channels of the channel table.  For another provider it raises
    the [KeyError] of that provider, and for a valid provider and a channel
    list with an unknown entry the [KeyError] of the first such entry. *)
Theorem X10_render_key_errors now provider chans environment :
  ((exists doc, PlanRollout.render now provider chans environment = Ok doc)
   <-> valid_provider provider /\ Forall valid_channel chans)
  /\ (~ valid_provider provider ->
      PlanRollout.render now provider chans environment
      = Raise (KeyError provider))
  /\ (forall good bad rest,
        valid_provider provider ->
        chans = good ++ bad :: rest ->
        Forall valid_channel good -> ~ valid_channel bad ->
        PlanRollout.render now provider chans environment
        = Raise (KeyError bad)).
Proof.
  split; [|split].
  - split.
    + intros [doc E].
      assert (Hp : valid_provider provider).
      { destruct (in_dec str_eq_dec provider
                         (PyDict.keys PlanRollout.PROVIDER_LINKS)) as [H|H];
          [now apply has_provider_iff|].
        rewrite render_bad_provider in E; [discriminate|].
        intros Hv. now apply has_provider_iff in Hv. }
      split; [exact Hp|].
      destruct (Forall_dec valid_channel valid_channel_dec chans) as [H|H];
        [exact H|].
      destruct (first_invalid _ H) as (good & bad & rest & -> & Hg & Hb).
      rewrite (render_bad_channel _ _ _ _ _ _ Hp Hg Hb) in E. discriminate.
    + intros [Hp Hc]. now apply render_total.
  - apply render_bad_provider.
  - intros good bad rest Hp -> Hg Hb. now apply render_bad_channel.
Qed.

Lemma X10_render_key_errors_witness :
  PlanRollout.render (lit "2026-01-01T00:00:00+00:00") (lit "fly")
                     [lit "slack"; lit "irc"; lit "matrix"] (lit "prod")
  = Raise (KeyError (lit "irc")).
Proof.
  apply (proj2 (proj2 (X10_render_key_errors
                         (lit "2026-01-01T00:00:00+00:00") (lit "fly")
                         [lit "slack"; lit "irc"; lit "matrix"] (lit "prod")))
           [lit "slack"] (lit "irc") [lit "matrix"]).
  - left. reflexivity.
  - reflexivity.
  - constructor; [right; right; reflexivity | constructor].
  - intros [H|[H|H]]; discriminate H.
Defined.

Lemma valid_channel_canonical (c : str) :
  valid_channel c ->
  ~ In ","%char c /\ truthy (strip c) = true /\ lower (strip c) = c.
Proof.
  intros [-> | [-> | ->]]; (split; [simpl; intuition discriminate|]);
    split; reflexivity.
Qed.

Lemma identifiers_valid (chans : list str) :
  Forall valid_channel chans -> identifiers chans = chans.
Proof.
  unfold identifiers.
  induction 1 as [|c chans Hc _ IH]; [reflexivity|].
  destruct (valid_channel_canonical c Hc) as (_ & Ht & Hl).
  cbn [filter]. rewrite Ht. cbn [map]. now rewrite Hl, IH.
Qed.

Lemma parse_channels_segments (raw : str) (segs : list str) :
  segments raw segs ->
  PlanRollout.parse_channels raw
  = if truthy (filter (fun c => negb (valid_channelb c)) (identifiers segs))
    then Raise (ValueError
                  (lit "Unsupported channels: "
                   ++ join (lit ", ")
                        (filter (fun c => negb (valid_channelb c))
                                (identifiers segs))))
    else Ok (identifiers segs).
Proof.
  intros (Hne & -> & Hsep). rewrite parse_channels_eq. cbv zeta.
  now rewrite (split_join _ _ Hne Hsep).
Qed.

Lemma parse_channels_valid (chans : list str) :
  Forall valid_channel chans ->
  PlanRollout.parse_channels (join [","%char] chans) = Ok chans.
Proof.
  intros H. destruct chans as [|c chans]; [reflexivity|].
  rewrite (parse_channels_segments _ (c :: chans)).
  - rewrite (identifiers_valid _ H).
    now rewrite (proj2 (offending_nil_iff _) H).
  - split; [discriminate|]. split; [reflexivity|].
    eapply Forall_impl; [|exact H].
    intros x Hx. now apply valid_channel_canonical.
Qed.

(** X11.  The channels that [parse_channels] returns are in canonical form:
    joined with commas again they parse to themselves. *)
Theorem X11_parse_channels_round_trip raw chans :
  PlanRollout.parse_channels raw = Ok chans ->
  PlanRollout.parse_channels (join [","%char] chans) = Ok chans.
Proof.
  intros H. apply parse_channels_valid.
  destruct (parse_channels_cases raw) as [(c & E & Hc)|(msg & E)];
    rewrite E in H; [|discriminate].
  now injection H as <-.
Qed.

Lemma X11_parse_channels_round_trip_witness :
  PlanRollout.parse_channels (lit "telegram,discord")
  = Ok [lit "telegram"; lit "discord"].
Proof.
  exact (X11_parse_channels_round_trip
           (lit " Telegram , ,DISCORD ") [lit "telegram"; lit "discord"]
           eq_refl).
Defined.

Lemma render_section now provider chans environment :
  valid_provider provider -> Forall valid_channel chans ->
  exists doc,
    PlanRollout.render now provider chans environment = Ok doc
    /\ channels_section doc
       = Some (if truthy chans then flat_map channel_lines chans
               else [no_channels_line]).
Proof.
  intros Hp Hc.
  destruct (render_layout now provider chans environment Hp Hc)
    as [before [E _]].
  eexists. split; [exact E|].
  unfold channels_section. apply section_of_join; try reflexivity.
  destruct chans; [reflexivity|]. now apply channel_lines_section.
Qed.

Lemma provider_choice (p : str) :
  valid_provider p ->
  mem p (sorted (PyDict.keys PlanRollout.PROVIDER_LINKS)) = true.
Proof.
  intros H. apply mem_In, sorted_In. now apply has_provider_iff.
Qed.

(** X12.  For a provider among the choices, the outcome of [main] follows
    the identifiers of the [--channels] argument.  When all are channels,
    [main] renders the document for them, whose channels section lists them,
    and hands it to the file system: when [mkdir] of the parent directory
    and [write_text] return, the document is written under the output path,
    the confirmation line names that path as [str(Path(...))] gives it, and
    the status is 0; when one of them raises, the run ends with that
    exception.  When an identifier is not a channel, nothing is written,
    the one error line lists all the offending identifiers and the status
    is 1. *)
Theorem X12_main_outcome fs now args segs :
  valid_provider (PlanRollout.provider args) ->
  segments (PlanRollout.channels args) segs ->
  let ids := identifiers segs in
  let output := PyPath.Path (PlanRollout.output args) in
  (Forall valid_channel ids ->
   exists doc,
     PlanRollout.render now (PlanRollout.provider args) ids
       (PlanRollout.environment args) = Ok doc
     /\ channels_section doc
        = Some (if truthy ids then flat_map channel_lines ids
                else [no_channels_line])
     /\ (PlanRollout.mkdir fs (PyPath.str_of (PyPath.parent output)) = Ok tt ->
         PlanRollout.write_text fs (PyPath.str_of output) doc = Ok tt ->
         PlanRollout.main fs now args
         = Ok {| PlanRollout.stdout :=
                   [lit "[OK] Wrote rollout plan: " ++ PyPath.str_of output];
                 PlanRollout.written := Some (PyPath.str_of output, doc);
                 PlanRollout.status := 0%Z |})
     /\ (forall e,
           PlanRollout.mkdir fs (PyPath.str_of (PyPath.parent output))
           = Raise e ->
           PlanRollout.main fs now args = Raise e)
     /\ (forall e,
           PlanRollout.mkdir fs (PyPath.str_of (PyPath.parent output))
           = Ok tt ->
           PlanRollout.write_text fs (PyPath.str_of output) doc = Raise e ->
           PlanRollout.main fs now args = Raise e))
  /\ (~ Forall valid_channel ids ->
      PlanRollout.main fs now args
      = Ok {| PlanRollout.stdout :=
                [lit "[ERROR] Unsupported channels: "
                 ++ join (lit ", ")
                      (filter (fun c => negb (valid_channelb c)) ids)];
              PlanRollout.written := None;
              PlanRollout.status := 1%Z |}).
Proof.
  intros Hp Hsegs. cbv zeta. unfold PlanRollout.main.
  rewrite (provider_choice _ Hp). cbn [negb].
  rewrite main_channels_step, (parse_channels_segments _ _ Hsegs).
  split.
  - intros Hc. rewrite (proj2 (offending_nil_iff _) Hc). cbn [truthy].
    destruct (render_section now (PlanRollout.provider args) (identifiers segs)
                (PlanRollout.environment args) Hp Hc) as (doc & Hr & Hs).
    exists doc. rewrite Hr. cbn [bind].
    split; [reflexivity|]. split; [exact Hs|].
    split; [|split].
    + intros Em Ew. now rewrite Em, Ew.
    + intros e Em. now rewrite Em.
    + intros e Em Ew. now rewrite Em, Ew.
  - intros Hc.
    destruct (filter (fun c => negb (valid_channelb c)) (identifiers segs))
      as [|x off] eqn:E.
    + apply offending_nil_iff in E. contradiction.
    + reflexivity.
Qed.

Lemma X12_main_outcome_witness :
  exists doc,
    PlanRollout.main
      {| PlanRollout.mkdir := fun _ => Ok tt;
         PlanRollout.write_text := fun _ _ => Ok tt |}
      (lit "2026-01-01T00:00:00+00:00")
      {| PlanRollout.provider := lit "railway";
         PlanRollout.channels := lit "Slack, telegram";
         PlanRollout.environment := lit "staging";
         PlanRollout.output := lit "./out//plan.md" |}
    = Ok {| PlanRollout.stdout := [lit "[OK] Wrote rollout plan: out/plan.md"];
            PlanRollout.written := Some (lit "out/plan.md", doc);
            PlanRollout.status := 0%Z |}
    /\ channels_section doc
       = Some (channel_lines (lit "slack") ++ channel_lines (lit "telegram")).
Proof.
  assert (Hsegs : segments (lit "Slack, telegram") [lit "Slack"; lit " telegram"]).
  { split; [discriminate|]. split; [reflexivity|].
    repeat constructor; simpl; intuition discriminate. }
  destruct (proj1 (X12_main_outcome
                     {| PlanRollout.mkdir := fun _ => Ok tt;
                        PlanRollout.write_text := fun _ _ => Ok tt |}
                     (lit "2026-01-01T00:00:00+00:00")
                     {| PlanRollout.provider := lit "railway";
                        PlanRollout.channels := lit "Slack, telegram";
                        PlanRollout.environment := lit "staging";
                        PlanRollout.output := lit "./out//plan.md" |}
                     [lit "Slack"; lit " telegram"]
                     (or_intror (or_intror (or_introl eq_refl))) Hsegs))
    as (doc & _ & Hs & Hm & _).
  - vm_compute.
    constructor; [right; right; reflexivity|].
    constructor; [left; reflexivity | constructor].
  - exists doc. split; [exact (Hm eq_refl eq_refl) | exact Hs].
Defined.

Lemma Ok_inj {A : Type} (a b : A) : Ok a = Ok b -> a = b.
Proof. now intros [= ->]. Qed.

Lemma join_final_empty (sep : str) (parts : list str) :
  parts <> [] -> join sep (parts ++ [[]]) = join sep parts ++ sep.
Proof.
  induction parts as [|p parts IH]; [congruence|]. intros _.
  destruct parts as [|q parts].
  - simpl. now rewrite app_nil_r.
  - change (join sep ((p :: q :: parts) ++ [[]]))
      with (p ++ sep ++ join sep ((q :: parts) ++ [[]])).
    rewrite IH by discriminate.
    change (join sep (p :: q :: parts)) with (p ++ sep ++ join sep (q :: parts)).
    now rewrite <- !app_assoc.
Qed.

Lemma channel_lines_no_heading (chans : list str) :
  Forall valid_channel chans ->
  filter (fun l => startswith l (lit "## ")) (flat_map channel_lines chans) = [].
Proof.
  induction 1 as [|c chans Hc _ IH]; cbn [flat_map]; [reflexivity|].
  rewrite filter_app, IH, app_nil_r.
  destruct Hc as [-> | [-> | ->]]; reflexivity.
Qed.

(** The lines of the rendered document, for a timestamp and an environment
    label that are single lines. *)
Lemma render_lines now provider chans environment :
  valid_provider provider -> Forall valid_channel chans ->
  one_line now = true -> one_line environment = true ->
  exists url doc,
    PyDict.get PlanRollout.PROVIDER_LINKS provider = Some url
    /\ PlanRollout.render now provider chans environment = Ok doc
    /\ doc_lines doc
       = PlanRollout.opening_lines now provider environment url
         ++ (if truthy chans then flat_map channel_lines chans
             else [no_channels_line])
         ++ PlanRollout.closing_lines.
Proof.
  intros Hp Hc Hn He.
  destruct (item_provider _ Hp) as [url E].
  assert (G : PyDict.get PlanRollout.PROVIDER_LINKS provider = Some url).
  { unfold PyDict.item in E.
    destruct (PyDict.get PlanRollout.PROVIDER_LINKS provider);
      [now injection E as -> | discriminate]. }
  assert (Hbody : forallb one_line
                    (if truthy chans then flat_map channel_lines chans
                     else [no_channels_line]) = true).
  { destruct chans; [reflexivity|].
    now apply (section_line_parts (lit "## 3. Channels")),
      channel_lines_section. }
  assert (Hopen : forallb one_line
                    (PlanRollout.opening_lines now provider environment url)
                  = true).
  { destruct Hp as [-> | [-> | [-> | [-> | ->]]]];
      vm_compute in G; injection G as <-;
      cbn [PlanRollout.opening_lines forallb];
      rewrite !one_line_app, Hn, He; reflexivity. }
  exists url.
  exists (join [LF]
            (PlanRollout.opening_lines now provider environment url
             ++ (if truthy chans then flat_map channel_lines chans
                 else [no_channels_line])
             ++ PlanRollout.closing_lines)).
  split; [exact G|]. split.
  - unfold PlanRollout.render. rewrite E. cbn [bind].
    destruct chans as [|c chans]; cbn [truthy].
    + cbn [bind]. rewrite <- app_assoc. reflexivity.
    + rewrite (for_each_append _ Hc). cbn [bind]. rewrite <- app_assoc.
      reflexivity.
  - unfold doc_lines. rewrite split_join_flat by discriminate.
    apply one_line_flat. rewrite !forallb_app, Hopen, Hbody. reflexivity.
Qed.

(** X13.  For a timestamp and an environment label that are single lines,
    the rendered document is the title, the three metadata lines with the
    timestamp, the provider and the label, and the six numbered sections in
    order; the deployment section gives the URL of the provider table; the
    document has 31 lines besides the channel lines and ends with a line
    feed. *)
Theorem X13_document_skeleton now provider chans environment :
  valid_provider provider -> Forall valid_channel chans ->
  one_line now = true -> one_line environment = true ->
  exists url doc,
    PyDict.get PlanRollout.PROVIDER_LINKS provider = Some url
    /\ PlanRollout.render now provider chans environment = Ok doc
    /\ List.length (doc_lines doc)
       = 31 + (if truthy chans then 2 * List.length chans else 1)
    /\ filter (fun l => startswith l (lit "## ")) (doc_lines doc)
       = [ lit "## 1. Preflight"; lit "## 2. Deployment";
           lit "## 3. Channels"; lit "## 4. Agent + Memory";
           lit "## 5. Security"; lit "## 6. Handover" ]
    /\ nth_error (doc_lines doc) 0 = Some (lit "# OpenClaw Rollout Plan")
    /\ nth_error (doc_lines doc) 2 = Some (lit "- Generated: " ++ now)
    /\ nth_error (doc_lines doc) 3 = Some (lit "- Provider: " ++ provider)
    /\ nth_error (doc_lines doc) 4 = Some (lit "- Environment: " ++ environment)
    /\ nth_error (doc_lines doc) 12
       = Some (lit "- [ ] Follow official provider guide: " ++ url)
    /\ exists body, doc = body ++ [LF].
Proof.
  intros Hp Hc Hn He.
  destruct (render_lines now provider chans environment Hp Hc Hn He)
    as (url & doc & G & Hr & Hl).
  exists url, doc. split; [exact G|]. split; [exact Hr|].
  rewrite Hl. split; [|split; [|repeat (split; [reflexivity|])]].
  - rewrite !length_app.
    change (List.length (PlanRollout.opening_lines now provider environment url))
      with 18.
    change (List.length PlanRollout.closing_lines) with 13.
    destruct chans as [|c chans]; cbn [truthy]; [reflexivity|].
    rewrite (proj1 (channel_lines_nth _ Hc)). lia.
  - rewrite !filter_app.
    assert (Hb : filter (fun l => startswith l (lit "## "))
                   (if truthy chans then flat_map channel_lines chans
                    else [no_channels_line]) = []).
    { destruct chans; [reflexivity|]. now apply channel_lines_no_heading. }
    rewrite Hb. reflexivity.
  - destruct (render_layout now provider chans environment Hp Hc)
      as [before [E _]].
    change ([] :: tl PlanRollout.closing_lines)
      with (removelast PlanRollout.closing_lines ++ [[]]) in E.
    rewrite app_assoc, join_final_empty in E
      by (destruct before; discriminate).
    rewrite E in Hr. apply Ok_inj in Hr. rewrite <- Hr.
    eexists. reflexivity.
Qed.

Lemma X13_document_skeleton_witness :
  exists url doc,
    PyDict.get PlanRollout.PROVIDER_LINKS (lit "hetzner") = Some url
    /\ PlanRollout.render (lit "2026-01-01T00:00:00+00:00") (lit "hetzner")
         [lit "discord"; lit "slack"] (lit "prod") = Ok doc
    /\ List.length (doc_lines doc) = 35.
Proof.
  destruct (X13_document_skeleton
              (lit "2026-01-01T00:00:00+00:00") (lit "hetzner")
              [lit "discord"; lit "slack"] (lit "prod"))
    as (url & doc & G & Hr & Hlen & _).
  - right; right; right; left. reflexivity.
  - constructor; [right; left; reflexivity|].
    constructor; [right; right; reflexivity | constructor].
  - reflexivity.
  - reflexivity.
  - exists url, doc. split; [exact G|]. split; [exact Hr | exact Hlen].
Defined.
